(** * The [/api/did-talk] handler of [server.js]

    A shallow embedding of the talking-avatar endpoint of the proxy
    (server.js, lines 97-185): the request guard, the job-creation call, the
    poll loop and the response statements, over an explicit model of what the
    handler exchanges with its host (the D-ID API reached through [fetch],
    timers, the Express response object and the console).

    The handler is an [async] function.  It is embedded in a monad [M] that
    threads the observable state (clock, effect trace, console, response
    object) and carries JavaScript exceptions; the unbounded [while] loop is
    unrolled by a fuel argument, and a run that uses its fuel up ends in
    [Pending]: the handler has not settled yet. *)

From Stdlib Require Import String List Bool Arith Lia Floats.
Import ListNotations.
Local Open Scope string_scope.
Local Open Scope list_scope.
Local Set Warnings "-register-all".

(** ** JavaScript values *)

(** The values that reach the handler: what [JSON.parse] builds (numbers are
    IEEE doubles, objects keep their entries in order) and [undefined], which
    a missing property reads as. *)
Inductive JSValue : Type :=
| JUndefined
| JNull
| JBool (b : bool)
| JNumber (x : float)
| JString (s : string)
| JArray (items : list JSValue)
| JObject (fields : list (string * JSValue)).

(** ToBoolean: [undefined], [null], [false], [0], [-0], [NaN] and the empty
    string are falsy, everything else is truthy. *)
Definition truthy (v : JSValue) : bool :=
  match v with
  | JUndefined | JNull => false
  | JBool b => b
  | JNumber x => negb (PrimFloat.is_zero x || PrimFloat.is_nan x)
  | JString s => negb (String.eqb s EmptyString)
  | JArray _ | JObject _ => true
  end.

Definition nullish (v : JSValue) : bool :=
  match v with
  | JUndefined | JNull => true
  | _ => false
  end.

(** [a ?? b] *)
Definition coalesce (a b : JSValue) : JSValue :=
  if nullish a then b else a.

(** [v === "literal"]: strict equality with a string literal holds for that
    very string only. *)
Definition strict_eq_string (v : JSValue) (lit : string) : bool :=
  match v with
  | JString s => String.eqb s lit
  | _ => false
  end.

(** The value of [key] among the entries of an object ([JSON.parse] leaves
    one entry per key). *)
Fixpoint lookup (key : string) (fields : list (string * JSValue)) : JSValue :=
  match fields with
  | [] => JUndefined
  | (k, v) :: rest => if String.eqb k key then v else lookup key rest
  end.

(** [v.key] on a value that is neither [undefined] nor [null].  The
    handlers read the keys [text], [question], [id], [status], [result_url],
    [choices], [message] and [content] only; none of them names a built-in
    property of a boolean, number, string or array, so on those the read
    gives [undefined]. *)
Definition property (v : JSValue) (key : string) : JSValue :=
  match v with
  | JObject fields => lookup key fields
  | _ => JUndefined
  end.

(** ** Exceptions *)

Inductive ErrorName : Type := TypeError | SyntaxError | PlainError.

(** A thrown [Error] object: [err.message] is a string, so
    [err?.message ?? String(err)] is the message. *)
Record JSError : Type := mkError { name : ErrorName; message : string }.

(** How an error message names a value that is [null] or [undefined]. *)
Definition nullish_text (v : JSValue) : string :=
  match v with
  | JNull => "null"
  | _ => "undefined"
  end.

(** Reading [v.key] when [v] is [undefined] or [null]. *)
Definition null_property_error (v : JSValue) (key : string) : JSError :=
  mkError TypeError
    ("Cannot read properties of " ++ nullish_text v ++ " (reading '" ++ key ++ "')").

(** [const { key } = source] when the value [v] of [source] is [undefined]
    or [null]. *)
Definition destructure_error (source : string) (v : JSValue) (key : string)
  : JSError :=
  mkError TypeError
    ("Cannot destructure property '" ++ key ++ "' of '" ++ source
     ++ "' as it is " ++ nullish_text v ++ ".").

(** A template literal on a value that has no string form. *)
Definition conversion_error : JSError :=
  mkError TypeError "Cannot convert object to primitive value".

Definition has_key (key : string) (fields : list (string * JSValue)) : bool :=
  existsb (fun kv => String.eqb (fst kv) key) fields.

(** Whether [`${v}`] gives a string.  An object is converted by its
    [toString]: the inherited one gives "[object Object]", but an entry
    ["toString"] of the object itself hides it, and as no JSON value can be
    called (nor can an entry ["valueOf"], and the inherited [valueOf] gives
    the object back) the conversion throws.  An array is converted by
    joining the string forms of its elements, [null] counting as the empty
    string. *)
Fixpoint convertible (v : JSValue) : bool :=
  match v with
  | JObject fields => negb (has_key "toString" fields)
  | JArray items =>
      (fix all (l : list JSValue) : bool :=
         match l with
         | [] => true
         | x :: rest => convertible x && all rest
         end) items
  | _ => true
  end.

(** A second read of a body that [text()] or [json()] has consumed. *)
Definition body_unusable_error : JSError :=
  mkError TypeError "Body is unusable: Body has already been read".

(** Express's [res.json] once the response has been sent
    ([ERR_HTTP_HEADERS_SENT]). *)
Definition headers_sent_error : JSError :=
  mkError PlainError "Cannot set headers after they are sent to the client".

(** ** The host *)

(** What the remote end answers to one [fetch]: the [ok] flag of the
    response and what reading its (fresh) body gives, as text and as JSON.
    [reply_json] is [JSON.parse] of the body, an error when the body is not
    JSON or when the stream breaks. *)
Record Reply : Type := mkReply {
  reply_ok : bool;
  reply_text : JSError + string;
  reply_json : JSError + JSValue
}.

(** The environment of one request: the outcome of the job-creation call
    (a rejected [fetch] or a reply), the outcome of the k-th status query,
    and how long the n-th [await] of the run takes beyond its minimum. *)
Record World : Type := mkWorld {
  create_reply : JSError + Reply;
  status_reply : nat -> JSError + Reply;
  await_delay : nat -> nat
}.

(** [process.env]: a variable is a string or is not set. *)
Record ProcessEnv : Type := mkEnv {
  DID_API_KEY : option string;
  DID_SOURCE_URL : option string
}.

Definition env_value (o : option string) : JSValue :=
  match o with
  | Some s => JString s
  | None => JUndefined
  end.

(** [`${v}`] for a value read from [process.env]. *)
Definition env_text (o : option string) : string :=
  match o with
  | Some s => s
  | None => "undefined"
  end.

(** [req]: the parsed body is all the handler reads. *)
Record Request : Type := mkRequest { body : JSValue }.

(** A [Response] object: the reply it carries and its identity, the index
    of its [bodyUsed] flag in the state. *)
Record Response : Type := mkResponse { rid : nat; reply : Reply }.

(** What the handler does to the outside, each stamped with the clock:
    - [FetchCreate auth payload]: POST https://api.d-id.com/talks with the
      Authorization header [auth] and the body [JSON.stringify(payload)];
    - [FetchStatus talkId auth]: GET https://api.d-id.com/talks/${talkId};
    - [BodyRead r]: a [text()] or [json()] of response [r] has settled;
    - [Timer ms]: [setTimeout(resolve, ms)] is called;
    - [Respond code payload]: [res.json(payload)] is called while the status
      code of [res] is [code]. *)
Inductive Event : Type :=
| FetchCreate (authorization : string) (payload : JSValue)
| FetchStatus (talkId : JSValue) (authorization : string)
| BodyRead (r : nat)
| Timer (ms : nat)
| Respond (code : nat) (payload : JSValue).

Inductive Level : Type := LogLevel | ErrorLevel.

(** What is printed: a string, a value, or the [Response] object of
    identity [r]. *)
Inductive LogArg : Type :=
| LText (s : string)
| LValue (v : JSValue)
| LResponse (r : nat).

Record State : Type := mkState {
  now : nat;                          (* the clock, in milliseconds *)
  awaits : nat;                       (* awaits settled so far *)
  effects : list (nat * Event);       (* oldest first *)
  console : list (Level * list LogArg);
  bodies : list bool;                 (* bodyUsed of each Response, by rid *)
  polls : nat;                        (* status queries issued so far *)
  statusCode : nat;                   (* res.statusCode *)
  headersSent : bool                  (* res.headersSent *)
}.

Definition initial_state : State :=
  mkState 0 0 [] [] [] 0 200 false.

(** ** The monad of the handler *)

Inductive Result (A : Type) : Type :=
| Return (a : A)
| Throw (e : JSError)
| Pending.
Arguments Return {A} a.
Arguments Throw {A} e.
Arguments Pending {A}.

Definition M (A : Type) : Type := State -> Result A * State.

Definition ret {A} (a : A) : M A := fun s => (Return a, s).

Definition bind {A B} (m : M A) (f : A -> M B) : M B :=
  fun s =>
    match m s with
    | (Return a, s') => f a s'
    | (Throw e, s') => (Throw e, s')
    | (Pending, s') => (Pending, s')
    end.

Definition throw {A} (e : JSError) : M A := fun s => (Throw e, s).

Definition pending {A} : M A := fun s => (Pending, s).

(** [try { m } catch (err) { h err }] *)
Definition try_catch {A} (m : M A) (h : JSError -> M A) : M A :=
  fun s =>
    match m s with
    | (Throw e, s') => h e s'
    | r => r
    end.

Declare Scope js_scope.
Delimit Scope js_scope with js.
Notation "x <- m ; k" := (bind m (fun x => k))
  (at level 61, m at next level, right associativity) : js_scope.
Notation "m ;; k" := (bind m (fun _ => k))
  (at level 61, right associativity) : js_scope.
Local Open Scope js_scope.

Definition emit (e : Event) : M unit :=
  fun s =>
    (Return tt,
     mkState (now s) (awaits s) (effects s ++ [(now s, e)]) (console s)
             (bodies s) (polls s) (statusCode s) (headersSent s)).

Definition log (lvl : Level) (args : list LogArg) : M unit :=
  fun s =>
    (Return tt,
     mkState (now s) (awaits s) (effects s) (console s ++ [(lvl, args)])
             (bodies s) (polls s) (statusCode s) (headersSent s)).

(** [v.key], throwing on [undefined] and [null]. *)
Definition member (v : JSValue) (key : string) : M JSValue :=
  if nullish v then throw (null_property_error v key) else ret (property v key).

(** [const { key } = source], [v] being the value of [source]. *)
Definition destructure (source : string) (v : JSValue) (key : string) : M JSValue :=
  if nullish v then throw (destructure_error source v key)
  else ret (property v key).

Fixpoint mark_used (r : nat) (flags : list bool) : list bool :=
  match flags, r with
  | [], _ => []
  | _ :: rest, 0 => true :: rest
  | b :: rest, S r' => b :: mark_used r' rest
  end.

Section Handler.

Variable w : World.
Variable env : ProcessEnv.

(** An [await] settles after at least [least] milliseconds; how much later
    is the host's choice. *)
Definition settle (least : nat) : M unit :=
  fun s =>
    (Return tt,
     mkState (now s + (least + await_delay w (awaits s))) (S (awaits s))
             (effects s) (console s) (bodies s) (polls s) (statusCode s)
             (headersSent s)).

(** A fresh [Response] object, its body not read yet. *)
Definition new_response (rep : Reply) : M Response :=
  fun s =>
    (Return (mkResponse (length (bodies s)) rep),
     mkState (now s) (awaits s) (effects s) (console s) (bodies s ++ [false])
             (polls s) (statusCode s) (headersSent s)).

Definition settle_fetch (outcome : JSError + Reply) : M Response :=
  settle 0 ;;
  match outcome with
  | inl e => throw e
  | inr rep => new_response rep
  end.

(** [await fetch("https://api.d-id.com/talks", { method: "POST", ... })] *)
Definition fetch_create (authorization : string) (payload : JSValue) : M Response :=
  emit (FetchCreate authorization payload) ;;
  settle_fetch (create_reply w).

Definition next_poll : M nat :=
  fun s =>
    (Return (polls s),
     mkState (now s) (awaits s) (effects s) (console s) (bodies s)
             (S (polls s)) (statusCode s) (headersSent s)).

(** [await fetch(`https://api.d-id.com/talks/${talkId}`, { method: "GET", ... })]:
    the template literal is evaluated first, and throws when [talkId] has no
    string form. *)
Definition fetch_status (talkId : JSValue) (authorization : string) : M Response :=
  if convertible talkId then
    emit (FetchStatus talkId authorization) ;;
    k <- next_poll ;
    settle_fetch (status_reply w k)
  else throw conversion_error.

(** [await r.text()] and [await r.json()]: a body is read once; a second
    read rejects. *)
Definition consume {A} (r : Response) (view : Reply -> JSError + A) : M A :=
  fun s =>
    if nth (rid r) (bodies s) true then
      (settle 0 ;; throw body_unusable_error) s
    else
      ((fun s' =>
          (Return tt,
           mkState (now s') (awaits s') (effects s') (console s')
                   (mark_used (rid r) (bodies s')) (polls s') (statusCode s')
                   (headersSent s'))) ;;
       settle 0 ;;
       emit (BodyRead (rid r)) ;;
       match view (reply r) with
       | inl e => throw e
       | inr a => ret a
       end) s.

Definition resp_text (r : Response) : M string := consume r reply_text.
Definition resp_json (r : Response) : M JSValue := consume r reply_json.

(** [await new Promise(resolve => setTimeout(resolve, ms))] *)
Definition sleep (ms : nat) : M unit :=
  emit (Timer ms) ;; settle ms.

(** [res.status(code)] *)
Definition res_status (code : nat) : M unit :=
  fun s =>
    (Return tt,
     mkState (now s) (awaits s) (effects s) (console s) (bodies s) (polls s)
             code (headersSent s)).

(** [res.json(payload)]: the first call sends the response; a later one
    throws, the response being sent already. *)
Definition res_json (payload : JSValue) : M unit :=
  fun s =>
    let s' sent :=
      mkState (now s) (awaits s)
              (effects s ++ [(now s, Respond (statusCode s) payload)])
              (console s) (bodies s) (polls s) (statusCode s) sent in
    if headersSent s then (Throw headers_sent_error, s' true)
    else (Return tt, s' true).

(** The condition of the [while]:
    [!talkResult || (talkResult.status !== 'done' && talkResult.status !== 'error')] *)
Definition loop_cond (talkResult : JSValue) : bool :=
  negb (truthy talkResult)
  || (negb (strict_eq_string (property talkResult "status") "done")
      && negb (strict_eq_string (property talkResult "status") "error")).

(** The poll loop (lines 154-167); [fuel] bounds the iterations unrolled. *)
Fixpoint poll (fuel : nat) (authorization : string) (talkId talkResult : JSValue)
  : M JSValue :=
  if loop_cond talkResult then
    match fuel with
    | 0 => pending
    | S fuel' =>
        sleep 3000 ;;
        log LogLevel [LText "Checking status for talk:"; LValue talkId] ;;
        getResponse <- fetch_status talkId authorization ;
        talkResult' <- resp_json getResponse ;
        poll fuel' authorization talkId talkResult'
    end
  else ret talkResult.

Definition source_url : string :=
  "https://d-id-public-bucket.s3.us-west-2.amazonaws.com/alice.jpg".

(** The object handed to [JSON.stringify] at lines 114-139. *)
Definition create_payload (text : JSValue) : JSValue :=
  JObject
    [("source_url", JString source_url);
     ("script",
      JObject
        [("type", JString "text");
         ("provider",
          JObject [("type", JString "microsoft");
                   ("voice_id", JString "en-US-JennyNeural")]);
         ("input", text)])].

(** [process.env.DID_SOURCE_URL || "https://randomuser.me/..."] *)
Definition sourceUrl : JSValue :=
  if truthy (env_value (DID_SOURCE_URL env)) then env_value (DID_SOURCE_URL env)
  else JString "https://randomuser.me/api/portraits/women/65.jpg".

Definition authorization : string := "Basic " ++ env_text (DID_API_KEY env).

(** Lines 169-177: what follows the loop. *)
Definition conclude (talkResult : JSValue) : M unit :=
  status <- member talkResult "status" ;
  (if strict_eq_string status "done" then
     log LogLevel [LText "Video is ready!"] ;;
     logged <- member talkResult "result_url" ;
     log LogLevel [LText "Video URL:"; LValue logged] ;;
     result_url <- member talkResult "result_url" ;
     res_json (JObject [("videoUrl", coalesce result_url talkResult)])
   else
     log ErrorLevel [LText "Video processing failed:"; LValue talkResult]) ;;
  res_status 500 ;;
  res_json (JObject [("error", JString "D-ID processing failed");
                     ("detail", talkResult)]).

(** Lines 108-177: the body of the [try]. *)
Definition attempt (fuel : nat) (text : JSValue) : M unit :=
  createResponse <- fetch_create authorization (create_payload text) ;
  log LogLevel [LText "D-ID response:"; LResponse (rid createResponse)] ;;
  (if negb (reply_ok (reply createResponse)) then
     detail <- resp_text createResponse ;
     res_json (JObject [("error", JString "D-ID creation failed");
                        ("detail", JString detail)])
   else ret tt) ;;
  createData <- resp_json createResponse ;
  talkId <- member createData "id" ;
  log LogLevel [LText "Talk created with ID:"; LValue talkId] ;;
  talkResult <- poll fuel authorization talkId JUndefined ;
  conclude talkResult.

(** Lines 181-184: the [catch]. *)
Definition recover (err : JSError) : M unit :=
  log ErrorLevel [LText "D-ID /did-talk error:"; LText (message err)] ;;
  res_status 502 ;;
  res_json (JObject [("error", JString "D-ID error");
                     ("detail", JString (message err))]).

(** [app.post("/api/did-talk", async (req, res) => { ... })] *)
Definition did_talk (fuel : nat) (req : Request) : M unit :=
  text <- destructure "req.body" (body req) "text" ;
  if negb (truthy text) then
    res_status 400 ;;
    res_json (JObject [("error", JString "text required")])
  else if negb (truthy (env_value (DID_API_KEY env))) || negb (truthy sourceUrl) then
    res_status 500 ;;
    res_json (JObject [("error", JString "D-ID key or source image not configured")])
  else
    try_catch (attempt fuel text) recover.

Definition run (fuel : nat) (req : Request) : Result unit * State :=
  did_talk fuel req initial_state.

End Handler.

(** ** Observations on a run *)

Definition is_status_query (e : Event) : bool :=
  match e with
  | FetchStatus _ _ => true
  | _ => false
  end.

Definition is_network_call (e : Event) : bool :=
  match e with
  | FetchCreate _ _ | FetchStatus _ _ => true
  | _ => false
  end.

Definition is_respond (e : Event) : bool :=
  match e with
  | Respond _ _ => true
  | _ => false
  end.

Definition events (s : State) : list Event := map snd (effects s).

(** The status queries issued, the network calls made and the responses
    attempted in a trace. *)
Definition status_queries (tr : list (nat * Event)) : nat :=
  length (filter is_status_query (map snd tr)).

Definition network_calls (tr : list (nat * Event)) : nat :=
  length (filter is_network_call (map snd tr)).

Definition responses (tr : list (nat * Event)) : list Event :=
  filter is_respond (map snd tr).

(** A status reply whose body parses to [v]. *)
Definition answers (w : World) (k : nat) (v : JSValue) : Prop :=
  exists rep, status_reply w k = inr rep /\ reply_json rep = inr v.

(** A status query that fails in transit with [e]: the [fetch] rejects, or
    the body does not read as JSON. *)
Definition fails_in_transit (w : World) (k : nat) (e : JSError) : Prop :=
  status_reply w k = inl e
  \/ exists rep, status_reply w k = inr rep /\ reply_json rep = inl e.

(** [v] carries a terminal status: [status] is ["done"] or ["error"]. *)
Definition terminal (v : JSValue) : bool :=
  strict_eq_string (property v "status") "done"
  || strict_eq_string (property v "status") "error".

(** The request passes the guards and the job is created: the text is
    truthy, the key is configured, and the creation call answers [ok] with
    a JSON body [createData] that is not [null]. *)
Definition submitted (w : World) (env : ProcessEnv) (req : Request)
    (text createData : JSValue) : Prop :=
  nullish (body req) = false
  /\ property (body req) "text" = text
  /\ truthy text = true
  /\ truthy (env_value (DID_API_KEY env)) = true
  /\ nullish createData = false
  /\ exists rep,
       create_reply w = inr rep /\ reply_ok rep = true
       /\ reply_json rep = inr createData.

(** The state in which the loop is entered after such a submission. *)
Definition loop_entry (w : World) (env : ProcessEnv) (text createData : JSValue)
  : State :=
  let t := await_delay w 0 + await_delay w 1 in
  mkState t 2
          [(0, FetchCreate (authorization env) (create_payload text));
           (t, BodyRead 0)]
          [(LogLevel, [LText "D-ID response:"; LResponse 0]);
           (LogLevel, [LText "Talk created with ID:";
                       LValue (property createData "id")])]
          [true] 0 200 false.

(** One turn of the loop from [s], up to the point where the [fetch] of the
    status query has settled. *)
Definition queried (w : World) (talkId : JSValue) (auth : string) (s : State) : State :=
  let t1 := now s + (3000 + await_delay w (awaits s)) in
  mkState (t1 + await_delay w (S (awaits s))) (S (S (awaits s)))
          (effects s ++ [(now s, Timer 3000)] ++ [(t1, FetchStatus talkId auth)])
          (console s ++ [(LogLevel, [LText "Checking status for talk:"; LValue talkId])])
          (bodies s) (S (polls s)) (statusCode s) (headersSent s).

(** One turn of the loop from [s], up to the point where the timer has
    fired: as far as a turn gets for a [talkId] without a string form. *)
Definition waited (w : World) (talkId : JSValue) (s : State) : State :=
  mkState (now s + (3000 + await_delay w (awaits s))) (S (awaits s))
          (effects s ++ [(now s, Timer 3000)])
          (console s ++ [(LogLevel, [LText "Checking status for talk:"; LValue talkId])])
          (bodies s) (polls s) (statusCode s) (headersSent s).

(** ... and up to the point where the body of the answer has been read. *)
Definition answered (w : World) (talkId : JSValue) (auth : string) (s : State) : State :=
  let q := queried w talkId auth s in
  let t := now q + await_delay w (awaits q) in
  mkState t (S (awaits q))
          (effects q ++ [(t, BodyRead (length (bodies s)))])
          (console q) (bodies s ++ [true]) (polls q) (statusCode q)
          (headersSent q).

(** ** Sessions *)

(** The state after [k] turns of the loop that each read an answer. *)
Fixpoint turns (w : World) (talkId : JSValue) (auth : string) (k : nat) (s : State)
  : State :=
  match k with
  | 0 => s
  | S k' => turns w talkId auth k' (answered w talkId auth s)
  end.

Definition outcome (w : World) (env : ProcessEnv) (fuel : nat) (req : Request)
  : Result unit := fst (run w env fuel req).

Definition final (w : World) (env : ProcessEnv) (fuel : nat) (req : Request)
  : State := snd (run w env fuel req).

Definition trace (w : World) (env : ProcessEnv) (fuel : nat) (req : Request)
  : list (nat * Event) := effects (final w env fuel req).

(** What remains of the handler once the job is created: the loop, the
    statements after it, and the [catch] around both. *)
Definition session (w : World) (env : ProcessEnv) (fuel : nat) (talkId : JSValue)
  : M unit :=
  try_catch
    (talkResult <- poll w fuel (authorization env) talkId JUndefined ;
     conclude talkResult)
    recover.

(** The first [k] answers from [s] on carry no terminal status. *)
Definition pending_until (w : World) (k : nat) (s : State) : Prop :=
  forall i, i < k -> exists v, answers w (polls s + i) v /\ terminal v = false.

(** The [k]-th answer is the first one that carries a terminal status,
    and it parses to [v]. *)
Definition first_terminal (w : World) (k : nat) (v : JSValue) : Prop :=
  (forall i, i < k -> exists u, answers w i u /\ terminal u = false)
  /\ answers w k v
  /\ terminal v = true.

(** ** The responses of the handler *)

Definition success_payload (talkResult : JSValue) : JSValue :=
  JObject [("videoUrl", coalesce (property talkResult "result_url") talkResult)].

Definition failure_payload (talkResult : JSValue) : JSValue :=
  JObject [("error", JString "D-ID processing failed"); ("detail", talkResult)].

Definition provider_error_payload (e : JSError) : JSValue :=
  JObject [("error", JString "D-ID error"); ("detail", JString (message e))].

Definition rejection_payload (detail : string) : JSValue :=
  JObject [("error", JString "D-ID creation failed"); ("detail", JString detail)].

(** A result reference that is empty or unset. *)
Definition unset (v : JSValue) : bool :=
  match v with
  | JUndefined | JNull => true
  | JString s => String.eqb s EmptyString
  | _ => false
  end.

(** ** What a computation adds to the trace *)

(** [m] only appends to the trace, and only events that satisfy [ok]. *)
Definition emits {A} (ok : Event -> Prop) (m : M A) : Prop :=
  forall s, exists evs,
    effects (snd (m s)) = effects s ++ evs
    /\ Forall (fun x => ok (snd x)) evs.

Definition any_event (e : Event) : Prop := True.

Definition not_a_query (e : Event) : Prop := is_status_query e = false.

(** The events of the handler: the job creation with the payload built from
    the text, status queries, body reads, 3000 ms timers and responses. *)
Inductive handler_event (env : ProcessEnv) : Event -> Prop :=
| creates text :
    handler_event env (FetchCreate (authorization env) (create_payload text))
| queries talkId :
    handler_event env (FetchStatus talkId (authorization env))
| reads r : handler_event env (BodyRead r)
| waits : handler_event env (Timer 3000)
| responds code payload : handler_event env (Respond code payload).

(** ** The pace of the status queries *)

(** Each status query of the trace comes right after a 3000 ms timer, set
    at the time [t0] at which the body of the previous response was read
    (response [0] is the answer to the job creation, response [k] the
    answer to the [k]-th status query); nothing older is later than [t0],
    and the query is issued no sooner than [t0 + 3000]. *)
Definition paced (tr : list (nat * Event)) : Prop :=
  forall pre t talkId auth post,
    tr = pre ++ (t, FetchStatus talkId auth) :: post ->
    exists older t0,
      pre = older ++ [(t0, BodyRead (status_queries older)); (t0, Timer 3000)]
      /\ t0 + 3000 <= t
      /\ Forall (fun x => fst x <= t0) older.

(** The loop is about to take a turn: the body of the latest response has
    just been read. *)
Definition ready (s : State) : Prop :=
  paced (effects s)
  /\ Forall (fun x => fst x <= now s) (effects s)
  /\ length (bodies s) = S (status_queries (effects s))
  /\ exists older, effects s = older ++ [(now s, BodyRead (status_queries older))].

(** ** Scenarios *)

Definition quote : string := String (Ascii.ascii_of_nat 34) EmptyString.

(** The JSON text of an object whose values are strings without escapes. *)
Fixpoint members_text (fields : list (string * string)) : string :=
  match fields with
  | [] => EmptyString
  | [(k, v)] => quote ++ k ++ quote ++ ":" ++ quote ++ v ++ quote
  | (k, v) :: rest =>
      quote ++ k ++ quote ++ ":" ++ quote ++ v ++ quote ++ "," ++ members_text rest
  end.

Definition object_text (fields : list (string * string)) : string :=
  "{" ++ members_text fields ++ "}".

Definition object_value (fields : list (string * string)) : JSValue :=
  JObject (map (fun kv => (fst kv, JString (snd kv))) fields).

(** A reply whose body is the JSON text of such an object. *)
Definition object_reply (okf : bool) (fields : list (string * string)) : Reply :=
  mkReply okf (inr (object_text fields)) (inr (object_value fields)).

Definition hello : Request :=
  mkRequest (JObject [("text", JString "Hello world")]).

Definition configured : ProcessEnv := mkEnv (Some "c2VjcmV0") None.

Definition pending_reply : Reply := object_reply true [("status", "pending")].

(** Job [abc123] is created and stays pending for ever. *)
Definition stuck_world : World :=
  mkWorld (inr (object_reply true [("id", "abc123")]))
          (fun _ => inr pending_reply)
          (fun n => 7 + n).

(** Job [abc123] is created; the third status query finds it done. *)
Definition success_world : World :=
  mkWorld (inr (object_reply true [("id", "abc123")]))
          (fun k =>
             if Nat.ltb k 2 then inr pending_reply
             else inr (object_reply true [("status", "done");
                                          ("result_url", "https://cdn/video.mp4")]))
          (fun n => 7 + n).

(** Job [xyz] is created; the first status query finds it failed. *)
Definition failure_world : World :=
  mkWorld (inr (object_reply true [("id", "xyz")]))
          (fun _ => inr (object_reply true [("status", "error");
                                            ("detail", "synthesis failed")]))
          (fun _ => 0).

(** Job [abc123] is created; the second status query does not get through. *)
Definition broken_world : World :=
  mkWorld (inr (object_reply true [("id", "abc123")]))
          (fun k =>
             if Nat.ltb k 1 then inr pending_reply
             else inl (mkError TypeError "fetch failed"))
          (fun _ => 0).

(** Job [abc123] is done at the first status query, and the answer carries
    no [result_url]. *)
Definition bare_done_world : World :=
  mkWorld (inr (object_reply true [("id", "abc123")]))
          (fun _ => inr (object_reply true [("status", "done")]))
          (fun _ => 0).

(** The creation call answers [{}]; each status query for the job is
    answered 404 with a JSON description of the error. *)
Definition anonymous_world : World :=
  mkWorld (inr (object_reply true []))
          (fun _ => inr (object_reply false [("kind", "NotFoundError")]))
          (fun _ => 1).

(** The creation call is answered 401 with a JSON description of the
    error. *)
Definition rejected_world : World :=
  mkWorld (inr (object_reply false [("kind", "AuthorizationError");
                                    ("description", "user unauthenticated")]))
          (fun _ => inr pending_reply)
          (fun _ => 0).

(** A job identifier with no string form: the parsed JSON object
    [{toString: 1}], whose own [toString] is not callable. *)
Definition unquotable_id : JSValue := JObject [("toString", JNumber 1)].

(** The creation call answers with that identifier; every status query for
    the job would find it pending. *)
Definition unquotable_world : World :=
  mkWorld (inr (mkReply true
                  (inr ("{" ++ quote ++ "id" ++ quote ++ ":{"
                         ++ quote ++ "toString" ++ quote ++ ":1}}")%string)
                  (inr (JObject [("id", unquotable_id)]))))
          (fun _ => inr pending_reply)
          (fun n => 7 + n).

(** ** Further observations *)

Definition is_creation (e : Event) : bool :=
  match e with
  | FetchCreate _ _ => true
  | _ => false
  end.

(** The job-creation calls made in a trace. *)
Definition creations (tr : list (nat * Event)) : nat :=
  length (filter is_creation (map snd tr)).

Definition config_error_payload : JSValue :=
  JObject [("error", JString "D-ID key or source image not configured")].

(** The request passes both guards and the creation call is made. *)
Definition attempted (env : ProcessEnv) (req : Request) : Prop :=
  nullish (body req) = false
  /\ truthy (property (body req) "text") = true
  /\ truthy (env_value (DID_API_KEY env)) = true.

(** The creation call of a request. *)
Definition creation_call (env : ProcessEnv) (req : Request) : nat * Event :=
  (0, FetchCreate (authorization env)
                  (create_payload (property (body req) "text"))).

(** Every network call of [rest] is a status query for [talkId] made with
    the Authorization header [auth]. *)
Definition only_queries_for (talkId : JSValue) (auth : string)
    (rest : list (nat * Event)) : Prop :=
  Forall (fun x => is_network_call (snd x) = true ->
                   snd x = FetchStatus talkId auth) rest.

(** [e] is a status query for [talkId] made with [auth], or no network call
    at all. *)
Definition query_for (talkId : JSValue) (auth : string) (e : Event) : Prop :=
  is_network_call e = true -> e = FetchStatus talkId auth.

(** What the body of the [try], with its [catch], can do for a request of
    text [text]: the creation call, status queries, body reads, 3000 ms
    timers, and responses of four shapes. *)
Inductive attempt_event (env : ProcessEnv) (text : JSValue) : Event -> Prop :=
| attempt_creates :
    attempt_event env text (FetchCreate (authorization env) (create_payload text))
| attempt_queries talkId :
    attempt_event env text (FetchStatus talkId (authorization env))
| attempt_reads r : attempt_event env text (BodyRead r)
| attempt_waits : attempt_event env text (Timer 3000)
| attempt_rejects code raw :
    attempt_event env text (Respond code (rejection_payload raw))
| attempt_succeeds code talkResult :
    attempt_event env text (Respond code (success_payload talkResult))
| attempt_fails code talkResult :
    attempt_event env text (Respond code (failure_payload talkResult))
| attempt_recovers code e :
    attempt_event env text (Respond code (provider_error_payload e)).

(** The job creation fails with [e] before an answer is parsed: the [fetch]
    rejects, or the body of an [ok] answer does not read as JSON. *)
Definition creation_fails (w : World) (e : JSError) : Prop :=
  create_reply w = inl e
  \/ exists rep,
       create_reply w = inr rep /\ reply_ok rep = true /\ reply_json rep = inl e.

(** No key, and a source image configured. *)
Definition keyless : ProcessEnv :=
  mkEnv None (Some "https://example.org/portrait.jpg").

(** The creation call does not get through. *)
Definition offline_world : World :=
  mkWorld (inl (mkError TypeError "fetch failed"))
          (fun _ => inr pending_reply)
          (fun n => 2 * n).

(** The creation call is answered [ok] with the JSON text [null]. *)
Definition null_world : World :=
  mkWorld (inr (mkReply true (inr "null") (inr JNull)))
          (fun _ => inr pending_reply)
          (fun _ => 4).

(** Two outcomes of a status query that differ at most in the [ok] flag
    and in the text of the body. *)
Definition answers_alike (r r' : JSError + Reply) : Prop :=
  match r, r' with
  | inl e, inl e' => e = e'
  | inr rep, inr rep' => reply_json rep = reply_json rep'
  | _, _ => False
  end.

(** Two worlds that differ at most in the [ok] flags and body texts of
    their status replies. *)
Definition same_but_status_flags (w w' : World) : Prop :=
  create_reply w = create_reply w'
  /\ (forall n, await_delay w n = await_delay w' n)
  /\ forall k, answers_alike (status_reply w k) (status_reply w' k).

(** [success_world] with every status query answered 404, the bodies
    being the same JSON. *)
Definition flagged_world : World :=
  mkWorld (create_reply success_world)
          (fun k =>
             match status_reply success_world k with
             | inl e => inl e
             | inr rep => inr (mkReply false (inr "Not Found") (reply_json rep))
             end)
          (await_delay success_world).

Definition is_timer (e : Event) : bool :=
  match e with
  | Timer _ => true
  | _ => false
  end.

(** The timers set in a trace. *)
Definition timers (tr : list (nat * Event)) : nat :=
  length (filter is_timer (map snd tr)).

(** [e] is neither a timer nor a status query. *)
Definition no_wait_no_query (e : Event) : Prop :=
  is_timer e = false /\ is_status_query e = false.

(** ** The forwarding endpoints *)

(** [/api/ask] and [/api/audio] (server.js, lines 30-86) forward one
    request to the OpenAI client and answer with what comes back.  They are
    embedded over the same response object and console as [/api/did-talk],
    next to the list of the calls made to the client; they set no timer,
    and their clock is not advanced. *)

(** The calls to the OpenAI client:
    - [ChatCompletion params]: [openai.chat.completions.create(params)];
    - [SpeechCreate params]: [openai.audio.speech.create(params)];
    - [ArrayBufferRead]: [response.arrayBuffer()] on the speech response. *)
Inductive ProviderCall : Type :=
| ChatCompletion (params : JSValue)
| SpeechCreate (params : JSValue)
| ArrayBufferRead.

Record Exchange : Type := mkExchange {
  calls : list ProviderCall;          (* oldest first *)
  res : State                         (* the response object and the console *)
}.

Definition fresh_exchange : Exchange := mkExchange [] initial_state.

Definition F (A : Type) : Type := Exchange -> Result A * Exchange.

Definition fret {A} (a : A) : F A := fun x => (Return a, x).

Definition fbind {A B} (m : F A) (f : A -> F B) : F B :=
  fun x =>
    match m x with
    | (Return a, x') => f a x'
    | (Throw e, x') => (Throw e, x')
    | (Pending, x') => (Pending, x')
    end.

(** [try { m } catch (err) { h err }] *)
Definition ftry {A} (m : F A) (h : JSError -> F A) : F A :=
  fun x =>
    match m x with
    | (Throw e, x') => h e x'
    | r => r
    end.

(** An operation on the response object or the console. *)
Definition lift {A} (m : M A) : F A :=
  fun x =>
    match m (res x) with
    | (r, s) => (r, mkExchange (calls x) s)
    end.

(** [await] of a call to the client that settles with [outcome]. *)
Definition call {A} (c : ProviderCall) (outcome : JSError + A) : F A :=
  fun x =>
    (match outcome with
     | inl e => Throw e
     | inr a => Return a
     end,
     mkExchange (calls x ++ [c]) (res x)).

Declare Scope fwd_scope.
Delimit Scope fwd_scope with fwd.
Notation "x <- m ; k" := (fbind m (fun x => k))
  (at level 61, m at next level, right associativity) : fwd_scope.
Notation "m ;; k" := (fbind m (fun _ => k))
  (at level 61, right associativity) : fwd_scope.

(** [v?.key] *)
Definition opt_property (v : JSValue) (key : string) : JSValue :=
  if nullish v then JUndefined else property v key.

(** [v[0]] on a value that is neither [undefined] nor [null]: the first
    element of an array, the first character of a string, the entry ["0"]
    of an object. *)
Definition first_element (v : JSValue) : JSValue :=
  match v with
  | JArray items => hd JUndefined items
  | JString (String c _) => JString (String c EmptyString)
  | JObject fields => lookup "0" fields
  | _ => JUndefined
  end.

(** [v?.[0]] *)
Definition opt_first (v : JSValue) : JSValue :=
  if nullish v then JUndefined else first_element v.

(** [a || b] *)
Definition or_else (a b : JSValue) : JSValue :=
  if truthy a then a else b.

(** The argument of [openai.chat.completions.create] (lines 35-45). *)
Definition chat_params (question : JSValue) : JSValue :=
  JObject
    [("model", JString "gpt-4o-mini");
     ("messages",
      JArray
        [JObject
           [("role", JString "system");
            ("content",
             JString "You are a friendly AI tutor. Explain topics simply and step-by-step with examples if possible.")];
         JObject [("role", JString "user"); ("content", question)]]);
     ("max_tokens", JNumber 800)].

(** [choices?.[0]?.message?.content || ""] (line 47), [choices] being
    [completion.choices]. *)
Definition first_content (choices : JSValue) : JSValue :=
  or_else
    (opt_property (opt_property (opt_first choices) "message") "content")
    (JString EmptyString).

Definition answer_payload (answer : JSValue) : JSValue :=
  JObject [("answer", answer)].

Definition ask_error_payload (e : JSError) : JSValue :=
  JObject [("error", JString "AI provider error"); ("detail", JString (message e))].

(** [app.post("/api/ask", async (req, res) => { ... })]; [completion] is
    what the call to the client settles with. *)
Definition ask (completion : JSError + JSValue) (req : Request) : F unit :=
  (question <- lift (destructure "req.body" (body req) "question") ;
   if negb (truthy question) then
     lift (res_status 400) ;;
     lift (res_json (JObject [("error", JString "question required")]))
   else
     ftry
       (completion <- call (ChatCompletion (chat_params question)) completion ;
        choices <- lift (member completion "choices") ;
        lift (res_json (answer_payload (first_content choices))))
       (fun err =>
          lift (log ErrorLevel [LText "OpenAI /ask error:"; LText (message err)]) ;;
          lift (res_status 502) ;;
          lift (res_json (ask_error_payload err))))%fwd.

Definition run_ask (completion : JSError + JSValue) (req : Request)
  : Result unit * Exchange :=
  ask completion req fresh_exchange.

(** The argument of [openai.audio.speech.create] (lines 69-73). *)
Definition speech_params (text : JSValue) : JSValue :=
  JObject [("model", JString "gpt-4o-mini-tts");
           ("voice", JString "alloy");
           ("input", text)].

Definition audio_payload (dataUrl : string) : JSValue :=
  JObject [("audio", JString dataUrl)].

Definition audio_error_payload (e : JSError) : JSValue :=
  JObject [("error", JString "TTS error"); ("detail", JString (message e))].

Section Audio.

(** [Buffer.from(arrayBuffer).toString("base64")] *)
Variable base64 : list Byte.byte -> string.

(** [app.post("/api/audio", async (req, res) => { ... })]; [speech] is what
    the call to the client settles with: an error, or a response whose
    [arrayBuffer()] settles with an error or with the bytes of the audio. *)
Definition audio (speech : JSError + (JSError + list Byte.byte)) (req : Request)
  : F unit :=
  (text <- lift (destructure "req.body" (body req) "text") ;
   if negb (truthy text) then
     lift (res_status 400) ;;
     lift (res_json (JObject [("error", JString "text required")]))
   else
     ftry
       (response <- call (SpeechCreate (speech_params text)) speech ;
        arrayBuffer <- call ArrayBufferRead response ;
        let dataUrl := ("data:audio/mpeg;base64," ++ base64 arrayBuffer)%string in
        lift (res_json (audio_payload dataUrl)))
       (fun err =>
          lift (log ErrorLevel [LText "OpenAI /audio error:"; LText (message err)]) ;;
          lift (res_status 502) ;;
          lift (res_json (audio_error_payload err))))%fwd.

Definition run_audio (speech : JSError + (JSError + list Byte.byte)) (req : Request)
  : Result unit * Exchange :=
  audio speech req fresh_exchange.

End Audio.

(** The responses attempted in an exchange. *)
Definition replies (x : Exchange) : list Event := responses (effects (res x)).

(** Base64 (RFC 4648) of a list of bytes given as numbers below 256. *)
Definition base64_alphabet : string :=
  "ABCDEFGHIJKLMNOPQRSTUVWXYZabcdefghijklmnopqrstuvwxyz0123456789+/".

Definition base64_digit (n : nat) : string :=
  match String.get n base64_alphabet with
  | Some c => String c EmptyString
  | None => EmptyString
  end.

Fixpoint base64_of_nats (bytes : list nat) : string :=
  match bytes with
  | [] => EmptyString
  | [a] => base64_digit (a / 4) ++ base64_digit (a mod 4 * 16) ++ "=="
  | [a; b] =>
      base64_digit (a / 4) ++ base64_digit (a mod 4 * 16 + b / 16)
      ++ base64_digit (b mod 16 * 4) ++ "="
  | a :: b :: c :: rest =>
      base64_digit (a / 4) ++ base64_digit (a mod 4 * 16 + b / 16)
      ++ base64_digit (b mod 16 * 4 + c / 64) ++ base64_digit (c mod 64)
      ++ base64_of_nats rest
  end.

Definition base64_rfc4648 (bytes : list Byte.byte) : string :=
  base64_of_nats (map Byte.to_nat bytes).

(** A completion with one choice, of content [content]. *)
Definition message_of (content : JSValue) : list (string * JSValue) :=
  [("role", JString "assistant"); ("content", content)].

Definition choice_of (content : JSValue) : list (string * JSValue) :=
  [("index", JNumber 0); ("message", JObject (message_of content))].

Definition completion_fields (content : JSValue) : list (string * JSValue) :=
  [("id", JString "chatcmpl-1");
   ("choices", JArray [JObject (choice_of content)])].

Definition completion_of (content : JSValue) : JSValue :=
  JObject (completion_fields content).

Definition asks (question : string) : Request :=
  mkRequest (JObject [("question", JString question)]).

Definition says (text : string) : Request :=
  mkRequest (JObject [("text", JString text)]).

(** The speech is created, and the read of its bytes breaks off. *)
Definition broken_stream : JSError + (JSError + list Byte.byte) :=
  inr (inl (mkError PlainError "terminated")).

(** * Properties *)

(** ** The loop, turn by turn *)

(** Runs the primitive operations of the monad on a state given by its
    fields. *)
Ltac run_ops :=
  cbv [bind ret throw pending try_catch emit log settle settle_fetch
       new_response next_poll fetch_create fetch_status sleep res_status
       res_json member destructure
       now awaits effects console bodies polls statusCode headersSent
       rid reply].

Lemma fresh_body_unused (flags : list bool) :
  nth (length flags) (flags ++ [false]) true = false.
Proof. induction flags as [|b rest IH]; simpl; auto. Qed.

Lemma mark_used_fresh (flags : list bool) :
  mark_used (length flags) (flags ++ [false]) = flags ++ [true].
Proof. induction flags as [|b rest IH]; simpl; [reflexivity | now rewrite IH]. Qed.

Section Loop.

Variable w : World.
Variable auth : string.
Variable talkId : JSValue.

(** A turn of the loop: the condition, then the timer, the conversion of
    [talkId], the query and the body read, the last three of which may end
    the loop with an exception. *)
Lemma poll_turn (fuel : nat) (cur : JSValue) (s : State) :
  poll w (S fuel) auth talkId cur s =
  if loop_cond cur then
    if convertible talkId then
      match status_reply w (polls s) with
      | inl e => (Throw e, queried w talkId auth s)
      | inr rep =>
          match reply_json rep with
          | inl e => (Throw e, answered w talkId auth s)
          | inr v => poll w fuel auth talkId v (answered w talkId auth s)
          end
      end
    else (Throw conversion_error, waited w talkId s)
  else (Return cur, s).
Proof.
  change (poll w (S fuel) auth talkId cur s) with
    ((if loop_cond cur then
        sleep w 3000 ;;
        log LogLevel [LText "Checking status for talk:"; LValue talkId] ;;
        getResponse <- fetch_status w talkId auth ;
        talkResult' <- resp_json w getResponse ;
        poll w fuel auth talkId talkResult'
      else ret cur) s).
  destruct (loop_cond cur); [|reflexivity].
  destruct s as [t n tr con bs p code sent].
  unfold fetch_status.
  destruct (convertible talkId); [|cbv [waited]; run_ops; reflexivity].
  run_ops.
  destruct (status_reply w p) as [e|rep].
  - cbv [queried]. run_ops. rewrite <- app_assoc. reflexivity.
  - cbv [new_response resp_json consume rid reply bodies].
    rewrite fresh_body_unused. run_ops. rewrite mark_used_fresh.
    cbv [answered queried]. run_ops. rewrite <- !app_assoc.
    destruct (reply_json rep) as [e|v]; reflexivity.
Qed.

Lemma poll_stop (fuel : nat) (cur : JSValue) (s : State) :
  loop_cond cur = false -> poll w fuel auth talkId cur s = (Return cur, s).
Proof. intros H. destruct fuel; simpl; rewrite H; reflexivity. Qed.

Lemma poll_starved (cur : JSValue) (s : State) :
  loop_cond cur = true -> poll w 0 auth talkId cur s = (Pending, s).
Proof. intros H. simpl. rewrite H. reflexivity. Qed.

End Loop.

Lemma loop_cond_terminal (v : JSValue) : loop_cond v = negb (terminal v).
Proof.
  unfold loop_cond, terminal.
  destruct v; cbn [truthy property negb orb andb strict_eq_string];
    rewrite ?orb_true_r, ?negb_orb; reflexivity.
Qed.

Lemma sourceUrl_truthy (env : ProcessEnv) : truthy (sourceUrl env) = true.
Proof.
  unfold sourceUrl.
  destruct (truthy (env_value (DID_SOURCE_URL env))) eqn:E; [exact E | reflexivity].
Qed.

Lemma terminal_not_nullish (v : JSValue) : terminal v = true -> nullish v = false.
Proof. destruct v; simpl; intros H; try reflexivity; discriminate H. Qed.

(** ** From the request to the loop *)

Lemma run_submitted w env req text createData fuel :
  submitted w env req text createData ->
  run w env fuel req =
  session w env fuel (property createData "id")
          (loop_entry w env text createData).
Proof.
  intros (Hbody & Htext & Htruthy & Hkey & Hdata & rep & Hcreate & Hok & Hjson).
  unfold run, did_talk, initial_state.
  run_ops. rewrite Hbody, Htext, Htruthy, Hkey, sourceUrl_truthy.
  cbv [negb orb].
  unfold attempt. run_ops. rewrite Hcreate. run_ops. rewrite Hok.
  cbv [negb]. run_ops. cbv [resp_json consume]. run_ops.
  cbv [nth mark_used length app]. run_ops. rewrite Hjson. run_ops.
  rewrite Hdata. run_ops. cbv [app].
  reflexivity.
Qed.

(** How a session ends, by how its loop ends. *)
Lemma session_split w env fuel talkId s :
  session w env fuel talkId s =
  match poll w fuel (authorization env) talkId JUndefined s with
  | (Return talkResult, s') => try_catch (conclude talkResult) recover s'
  | (Throw e, s') => recover e s'
  | (Pending, s') => (Pending, s')
  end.
Proof.
  unfold session, try_catch, bind.
  destruct (poll w fuel (authorization env) talkId JUndefined s) as [[v|e|] s'];
    reflexivity.
Qed.

(** ** Counting over traces *)

Lemma status_queries_app tr tr' :
  status_queries (tr ++ tr') = status_queries tr + status_queries tr'.
Proof. unfold status_queries. now rewrite map_app, filter_app, length_app. Qed.

Lemma responses_app tr tr' : responses (tr ++ tr') = responses tr ++ responses tr'.
Proof. unfold responses. now rewrite map_app, filter_app. Qed.

Section Turns.

Variable w : World.
Variable talkId : JSValue.
Variable auth : string.

Lemma turns_succ k s :
  turns w talkId auth (S k) s = answered w talkId auth (turns w talkId auth k s).
Proof.
  revert s. induction k as [|k IH]; intros s; [reflexivity|].
  change (turns w talkId auth (S (S k)) s)
    with (turns w talkId auth (S k) (answered w talkId auth s)).
  rewrite IH. reflexivity.
Qed.

Lemma turns_polls k s : polls (turns w talkId auth k s) = polls s + k.
Proof.
  induction k as [|k IH]; [simpl; lia|].
  rewrite turns_succ. cbn [answered queried polls]. rewrite IH. lia.
Qed.

Lemma turns_status_queries k s :
  status_queries (effects (turns w talkId auth k s)) = status_queries (effects s) + k.
Proof.
  induction k as [|k IH]; [simpl; lia|].
  rewrite turns_succ. cbn [answered queried effects].
  rewrite !status_queries_app, IH. cbn. lia.
Qed.

Lemma turns_responses k s :
  responses (effects (turns w talkId auth k s)) = responses (effects s).
Proof.
  induction k as [|k IH]; [reflexivity|].
  rewrite turns_succ. cbn [answered queried effects].
  rewrite !responses_app, IH. cbn. now rewrite !app_nil_r.
Qed.

Lemma turns_headersSent k s : headersSent (turns w talkId auth k s) = headersSent s.
Proof.
  induction k as [|k IH]; [reflexivity|].
  rewrite turns_succ. cbn [answered queried headersSent]. exact IH.
Qed.

Lemma turns_statusCode k s : statusCode (turns w talkId auth k s) = statusCode s.
Proof.
  induction k as [|k IH]; [reflexivity|].
  rewrite turns_succ. cbn [answered queried statusCode]. exact IH.
Qed.

Lemma turns_now k s : now s + 3000 * k <= now (turns w talkId auth k s).
Proof.
  induction k as [|k IH]; [simpl; lia|].
  rewrite turns_succ. cbn [answered queried now]. lia.
Qed.

(** While the answers carry no terminal status the loop goes on: [k] such
    answers take [k] turns. *)
Lemma poll_pending_turns k :
  convertible talkId = true ->
  forall fuel cur s,
    loop_cond cur = true ->
    (forall i, i < k ->
       exists v, answers w (polls s + i) v /\ terminal v = false) ->
    exists cur',
      loop_cond cur' = true
      /\ poll w (k + fuel) auth talkId cur s
         = poll w fuel auth talkId cur' (turns w talkId auth k s).
Proof.
  intros Hconv.
  induction k as [|k IH]; intros fuel cur s Hcur Hpending.
  - exists cur. split; [exact Hcur | reflexivity].
  - destruct (Hpending 0 ltac:(lia)) as (v & (rep & Hrep & Hjson) & Hv).
    rewrite Nat.add_0_r in Hrep.
    change (S k + fuel) with (S (k + fuel)).
    rewrite poll_turn, Hcur, Hconv, Hrep, Hjson.
    apply IH.
    + rewrite loop_cond_terminal, Hv. reflexivity.
    + intros i Hi. cbn [answered queried polls].
      replace (S (polls s) + i) with (polls s + S i) by lia.
      apply Hpending. lia.
Qed.

End Turns.

(** ** After the loop *)

(** The loop left with status ["done"]: the success response is sent, the
    failure response is attempted after it and throws, and so does the
    response of the [catch]. *)
Lemma finish_done (v : JSValue) (s : State) :
  strict_eq_string (property v "status") "done" = true ->
  headersSent s = false ->
  fst (try_catch (conclude v) recover s)
  = Throw headers_sent_error
  /\ effects (snd (try_catch (conclude v) recover s))
     = effects s
       ++ [(now s, Respond (statusCode s) (success_payload v));
           (now s, Respond 500 (failure_payload v));
           (now s, Respond 502 (provider_error_payload headers_sent_error))].
Proof.
  intros Hdone Hsent.
  assert (Hv : nullish v = false)
    by (apply terminal_not_nullish; unfold terminal; rewrite Hdone; reflexivity).
  destruct s as [t n tr con bs p code sent]. cbn [headersSent] in Hsent. subst sent.
  unfold conclude, recover. run_ops. rewrite Hv. run_ops. rewrite Hdone. run_ops.
  split; [reflexivity|].
  rewrite <- !app_assoc. reflexivity.
Qed.

(** The loop left with another status (["error"]): the failure response is
    the one sent. *)
Lemma finish_error (v : JSValue) (s : State) :
  nullish v = false ->
  strict_eq_string (property v "status") "done" = false ->
  headersSent s = false ->
  fst (try_catch (conclude v) recover s) = Return tt
  /\ effects (snd (try_catch (conclude v) recover s))
     = effects s ++ [(now s, Respond 500 (failure_payload v))].
Proof.
  intros Hv Hdone Hsent.
  destruct s as [t n tr con bs p code sent]. cbn [headersSent] in Hsent. subst sent.
  unfold conclude, recover. run_ops. rewrite Hv. run_ops. rewrite Hdone. run_ops.
  split; reflexivity.
Qed.

(** The loop left by an exception: the [catch] answers 502. *)
Lemma finish_thrown (e : JSError) (s : State) :
  headersSent s = false ->
  fst (recover e s) = Return tt
  /\ effects (snd (recover e s))
     = effects s ++ [(now s, Respond 502 (provider_error_payload e))].
Proof.
  intros Hsent.
  destruct s as [t n tr con bs p code sent]. cbn [headersSent] in Hsent. subst sent.
  unfold recover. run_ops. split; reflexivity.
Qed.

(** ** How a session ends *)

Section Sessions.

Variable w : World.
Variable env : ProcessEnv.
Variable talkId : JSValue.

(** The URL of the status query can be built from the identifier. *)
Hypothesis Hconv : convertible talkId = true.

Let auth := authorization env.

Lemma loop_cond_initial : loop_cond JUndefined = true.
Proof. reflexivity. Qed.

Lemma session_pending fuel s :
  pending_until w fuel s ->
  session w env fuel talkId s = (Pending, turns w talkId auth fuel s).
Proof.
  intros Hpending. rewrite session_split.
  destruct (poll_pending_turns w talkId auth fuel Hconv 0 JUndefined s
              loop_cond_initial Hpending) as (cur & Hcur & Heq).
  rewrite Nat.add_0_r in Heq. fold auth. rewrite Heq.
  rewrite poll_starved by exact Hcur. reflexivity.
Qed.

Lemma session_terminal k fuel v s :
  pending_until w k s ->
  answers w (polls s + k) v -> terminal v = true -> k < fuel ->
  session w env fuel talkId s
  = try_catch (conclude v) recover (turns w talkId auth (S k) s).
Proof.
  intros Hpending (rep & Hrep & Hjson) Hv Hfuel. rewrite session_split.
  destruct (poll_pending_turns w talkId auth k Hconv (fuel - k) JUndefined s
              loop_cond_initial Hpending) as (cur & Hcur & Heq).
  replace (k + (fuel - k)) with fuel in Heq by lia.
  fold auth. rewrite Heq.
  destruct (fuel - k) as [|rest] eqn:Hrest; [lia|].
  rewrite poll_turn, Hcur, Hconv, turns_polls, Hrep, Hjson.
  rewrite poll_stop by (rewrite loop_cond_terminal, Hv; reflexivity).
  rewrite turns_succ. reflexivity.
Qed.

Lemma session_fetch_rejected k fuel e s :
  pending_until w k s ->
  status_reply w (polls s + k) = inl e -> k < fuel ->
  session w env fuel talkId s
  = recover e (queried w talkId auth (turns w talkId auth k s)).
Proof.
  intros Hpending Hrep Hfuel. rewrite session_split.
  destruct (poll_pending_turns w talkId auth k Hconv (fuel - k) JUndefined s
              loop_cond_initial Hpending) as (cur & Hcur & Heq).
  replace (k + (fuel - k)) with fuel in Heq by lia.
  fold auth. rewrite Heq.
  destruct (fuel - k) as [|rest] eqn:Hrest; [lia|].
  rewrite poll_turn, Hcur, Hconv, turns_polls, Hrep. reflexivity.
Qed.

Lemma session_body_rejected k fuel rep e s :
  pending_until w k s ->
  status_reply w (polls s + k) = inr rep -> reply_json rep = inl e -> k < fuel ->
  session w env fuel talkId s = recover e (turns w talkId auth (S k) s).
Proof.
  intros Hpending Hrep Hjson Hfuel. rewrite session_split.
  destruct (poll_pending_turns w talkId auth k Hconv (fuel - k) JUndefined s
              loop_cond_initial Hpending) as (cur & Hcur & Heq).
  replace (k + (fuel - k)) with fuel in Heq by lia.
  fold auth. rewrite Heq.
  destruct (fuel - k) as [|rest] eqn:Hrest; [lia|].
  rewrite poll_turn, Hcur, Hconv, turns_polls, Hrep, Hjson.
  rewrite turns_succ. reflexivity.
Qed.

End Sessions.

Lemma pending_until_entry w env text createData k :
  (forall i, i < k -> exists v, answers w i v /\ terminal v = false) ->
  pending_until w k (loop_entry w env text createData).
Proof. intros H i Hi. cbn [loop_entry polls]. apply H. exact Hi. Qed.

(** ** Sessions for an identifier without a string form *)

(** The first turn of the loop sets the timer, logs, and throws when the
    URL of the status query is built; the [catch] answers 502. *)
Lemma session_unconvertible w env fuel talkId s :
  convertible talkId = false ->
  session w env (S fuel) talkId s = recover conversion_error (waited w talkId s).
Proof.
  intros Hconv.
  rewrite session_split, poll_turn, loop_cond_initial, Hconv. reflexivity.
Qed.

Lemma trace_unconvertible w env req text createData fuel :
  submitted w env req text createData ->
  convertible (property createData "id") = false ->
  0 < fuel ->
  trace w env fuel req
  = [(0, FetchCreate (authorization env) (create_payload text));
     (await_delay w 0 + await_delay w 1, BodyRead 0);
     (await_delay w 0 + await_delay w 1, Timer 3000);
     (await_delay w 0 + await_delay w 1 + (3000 + await_delay w 2),
      Respond 502 (provider_error_payload conversion_error))].
Proof.
  intros Hsub Hconv Hfuel.
  destruct fuel as [|fuel]; [lia|].
  unfold trace, final.
  rewrite (run_submitted w env req text createData _ Hsub).
  rewrite session_unconvertible by exact Hconv.
  set (s := waited w (property createData "id") (loop_entry w env text createData)).
  assert (Hsent : headersSent s = false) by reflexivity.
  destruct (finish_thrown conversion_error s Hsent) as (_ & Hsnd).
  rewrite Hsnd. reflexivity.
Qed.

Lemma run_unconvertible w env req text createData fuel :
  submitted w env req text createData ->
  convertible (property createData "id") = false ->
  0 < fuel ->
  outcome w env fuel req = Return tt
  /\ status_queries (trace w env fuel req) = 0
  /\ responses (trace w env fuel req)
     = [Respond 502 (provider_error_payload conversion_error)]
  /\ run w env fuel req = run w env 1 req.
Proof.
  intros Hsub Hconv Hfuel.
  rewrite (trace_unconvertible w env req text createData fuel Hsub Hconv Hfuel).
  destruct fuel as [|fuel]; [lia|].
  unfold outcome.
  rewrite !(run_submitted w env req text createData _ Hsub).
  rewrite !session_unconvertible by exact Hconv.
  set (s := waited w (property createData "id") (loop_entry w env text createData)).
  assert (Hsent : headersSent s = false) by reflexivity.
  destruct (finish_thrown conversion_error s Hsent) as (Hfst & _).
  rewrite Hfst. repeat split.
Qed.

(** ** Sessions that reach a terminal status *)

Lemma run_terminal w env req text createData k v fuel :
  submitted w env req text createData ->
  convertible (property createData "id") = true ->
  first_terminal w k v ->
  k < fuel ->
  run w env fuel req
  = try_catch (conclude v) recover
      (turns w (property createData "id") (authorization env) (S k)
             (loop_entry w env text createData)).
Proof.
  intros Hsub Hconv (Hpending & Hanswer & Hterminal) Hfuel.
  rewrite (run_submitted w env req text createData fuel Hsub).
  apply session_terminal; auto using pending_until_entry.
Qed.

Lemma run_done w env req text createData k v fuel :
  submitted w env req text createData ->
  convertible (property createData "id") = true ->
  first_terminal w k v ->
  strict_eq_string (property v "status") "done" = true ->
  k < fuel ->
  outcome w env fuel req = Throw headers_sent_error
  /\ status_queries (trace w env fuel req) = S k
  /\ responses (trace w env fuel req)
     = [Respond 200 (success_payload v);
        Respond 500 (failure_payload v);
        Respond 502 (provider_error_payload headers_sent_error)].
Proof.
  intros Hsub Hconv Hfirst Hdone Hfuel.
  unfold outcome, trace, final.
  rewrite (run_terminal w env req text createData k v fuel Hsub Hconv Hfirst Hfuel).
  set (s := turns w (property createData "id") (authorization env) (S k)
                  (loop_entry w env text createData)).
  assert (Hsent : headersSent s = false) by (unfold s; now rewrite turns_headersSent).
  assert (Hcode : statusCode s = 200) by (unfold s; now rewrite turns_statusCode).
  destruct (finish_done v s Hdone Hsent) as (Hfst & Hsnd).
  rewrite Hfst, Hsnd, status_queries_app, responses_app, Hcode.
  unfold s. rewrite turns_status_queries, turns_responses.
  split; [reflexivity|]. split; [cbn; lia | reflexivity].
Qed.

Lemma run_failed w env req text createData k v fuel :
  submitted w env req text createData ->
  convertible (property createData "id") = true ->
  first_terminal w k v ->
  strict_eq_string (property v "status") "done" = false ->
  k < fuel ->
  outcome w env fuel req = Return tt
  /\ status_queries (trace w env fuel req) = S k
  /\ responses (trace w env fuel req) = [Respond 500 (failure_payload v)].
Proof.
  intros Hsub Hconv Hfirst Hdone Hfuel.
  unfold outcome, trace, final.
  rewrite (run_terminal w env req text createData k v fuel Hsub Hconv Hfirst Hfuel).
  set (s := turns w (property createData "id") (authorization env) (S k)
                  (loop_entry w env text createData)).
  assert (Hsent : headersSent s = false) by (unfold s; now rewrite turns_headersSent).
  destruct Hfirst as (_ & _ & Hterminal).
  destruct (finish_error v s (terminal_not_nullish v Hterminal) Hdone Hsent)
    as (Hfst & Hsnd).
  rewrite Hfst, Hsnd, status_queries_app, responses_app.
  unfold s. rewrite turns_status_queries, turns_responses.
  split; [reflexivity|]. split; [cbn; lia | reflexivity].
Qed.

Lemma first_terminal_success :
  first_terminal success_world 2
    (object_value [("status", "done"); ("result_url", "https://cdn/video.mp4")]).
Proof.
  split; [|split].
  - intros i Hi. exists (object_value [("status", "pending")]). split.
    + exists pending_reply. split; [|reflexivity].
      destruct i as [|[|i]]; [reflexivity | reflexivity | lia].
    + reflexivity.
  - eexists. split; reflexivity.
  - reflexivity.
Qed.

Lemma submitted_hello (w : World) (fields : list (string * string)) :
  create_reply w = inr (object_reply true fields) ->
  submitted w configured hello (JString "Hello world") (object_value fields).
Proof.
  intros Hcreate. unfold submitted. repeat split; try reflexivity.
  exists (object_reply true fields). repeat split; try reflexivity. exact Hcreate.
Qed.

(** ** The scenarios of the specification *)

(** Success: job [abc123] is pending twice, then done; three status
    queries are issued and the video URL is answered. *)
Example success_scenario :
  status_queries (trace success_world configured 9 hello) = 3
  /\ nth_error (responses (trace success_world configured 9 hello)) 0
     = Some (Respond 200 (JObject [("videoUrl", JString "https://cdn/video.mp4")])).
Proof. split; reflexivity. Qed.

(** Remote failure: the first status query finds the job failed; the 500
    response carries the terminal answer and no further query is issued. *)
Example remote_failure_scenario :
  outcome failure_world configured 9 hello = Return tt
  /\ status_queries (trace failure_world configured 9 hello) = 1
  /\ responses (trace failure_world configured 9 hello)
     = [Respond 500
          (failure_payload
             (object_value [("status", "error"); ("detail", "synthesis failed")]))].
Proof. repeat split. Qed.

(** No API key: the handler answers 500 before any network call. *)
Example unconfigured_scenario :
  trace stuck_world (mkEnv None None) 9 hello
  = [(0, Respond 500
           (JObject [("error", JString "D-ID key or source image not configured")]))].
Proof. reflexivity. Qed.

(** ** The poll loop *)

(** C3: the loop has no bound on attempts or elapsed time.  When the job
    identifier has a string form and every status query is answered with a
    non-terminal status, the handler is still pending after any number of
    turns of the loop: with [fuel] turns it has issued [fuel] status
    queries, has spent at least [3000 * fuel] milliseconds, and has
    attempted no response. *)
Theorem pending_forever_never_settles w env req text createData :
  submitted w env req text createData ->
  convertible (property createData "id") = true ->
  (forall k, exists v, answers w k v /\ terminal v = false) ->
  forall fuel,
    outcome w env fuel req = Pending
    /\ status_queries (trace w env fuel req) = fuel
    /\ responses (trace w env fuel req) = []
    /\ 3000 * fuel <= now (final w env fuel req).
Proof.
  intros Hsub Hconv Hpending fuel.
  unfold outcome, trace, final.
  rewrite (run_submitted w env req text createData fuel Hsub).
  rewrite session_pending
    by (try exact Hconv; apply pending_until_entry; intros i _; apply Hpending).
  cbn [fst snd]. rewrite turns_status_queries, turns_responses.
  repeat split; try reflexivity.
  etransitivity; [|apply turns_now]. lia.
Qed.

(** C3 at [stuck_world]: after five turns the handler is still pending. *)
Lemma pending_forever_witness :
  outcome stuck_world configured 5 hello = Pending
  /\ status_queries (trace stuck_world configured 5 hello) = 5
  /\ responses (trace stuck_world configured 5 hello) = []
  /\ 3000 * 5 <= now (final stuck_world configured 5 hello).
Proof.
  apply (pending_forever_never_settles stuck_world configured hello
           (JString "Hello world") (object_value [("id", "abc123")])).
  - apply submitted_hello. reflexivity.
  - reflexivity.
  - intros k. exists (object_value [("status", "pending")]). split.
    + exists pending_reply. split; reflexivity.
    + reflexivity.
Defined.

(** C3, as stated for every job: at [unquotable_world] the job is created
    and every status answer would be pending, yet the handler settles in
    the first turn of the loop: the status URL cannot be built from the
    identifier, no status query is issued, and the [catch] answers 502. *)
Lemma pending_forever_counterexample :
  submitted unquotable_world configured hello
            (JString "Hello world") (JObject [("id", unquotable_id)])
  /\ (forall k, exists v,
        answers unquotable_world k v /\ terminal v = false)
  /\ outcome unquotable_world configured 5 hello = Return tt
  /\ status_queries (trace unquotable_world configured 5 hello) = 0
  /\ responses (trace unquotable_world configured 5 hello)
     = [Respond 502
          (JObject [("error", JString "D-ID error");
                    ("detail",
                     JString "Cannot convert object to primitive value")])].
Proof.
  split; [|split].
  - unfold submitted. repeat split; try reflexivity.
    eexists. repeat split; reflexivity.
  - intros k. exists (object_value [("status", "pending")]). split.
    + exists pending_reply. split; reflexivity.
    + reflexivity.
  - repeat split.
Qed.

(** C4: the loop exits on the first answer whose status is [done] or
    [error].  When the [k]-th answer is the first terminal one, the handler
    settles, at most [k + 1] status queries are issued whatever fuel is
    left, and more fuel changes nothing: no turn of the loop follows the
    terminal answer.  When the job identifier has a string form, so that
    the queries are issued at all, there are exactly [k + 1] of them, and
    the value the loop is left with is the terminal answer (it is the
    detail of the failure response attempted after the loop). *)
Theorem loop_exits_on_first_terminal w env req text createData k v :
  submitted w env req text createData ->
  first_terminal w k v ->
  forall fuel, k < fuel ->
    outcome w env fuel req <> Pending
    /\ status_queries (trace w env fuel req) <= S k
    /\ run w env fuel req = run w env (S k) req
    /\ (convertible (property createData "id") = true ->
        status_queries (trace w env fuel req) = S k
        /\ In (Respond 500 (failure_payload v))
              (responses (trace w env fuel req))).
Proof.
  intros Hsub Hfirst fuel Hfuel.
  destruct (convertible (property createData "id")) eqn:Hconv.
  - assert (Hsame : run w env fuel req = run w env (S k) req).
    { rewrite (run_terminal w env req text createData k v fuel
                 Hsub Hconv Hfirst Hfuel).
      rewrite (run_terminal w env req text createData k v (S k)
                 Hsub Hconv Hfirst (Nat.lt_succ_diag_r k)).
      reflexivity. }
    destruct (strict_eq_string (property v "status") "done") eqn:Hdone.
    + destruct (run_done w env req text createData k v fuel
                  Hsub Hconv Hfirst Hdone Hfuel)
        as (Hout & Hqueries & Hresponses).
      rewrite Hout, Hqueries, Hresponses.
      split; [discriminate|]. split; [lia|]. split; [exact Hsame|].
      intros _. split; [reflexivity | right; left; reflexivity].
    + destruct (run_failed w env req text createData k v fuel
                  Hsub Hconv Hfirst Hdone Hfuel)
        as (Hout & Hqueries & Hresponses).
      rewrite Hout, Hqueries, Hresponses.
      split; [discriminate|]. split; [lia|]. split; [exact Hsame|].
      intros _. split; [reflexivity | left; reflexivity].
  - destruct (run_unconvertible w env req text createData fuel Hsub Hconv)
      as (Hout & Hqueries & _ & Hsame); [lia|].
    destruct (run_unconvertible w env req text createData (S k) Hsub Hconv)
      as (_ & _ & _ & Hsame'); [lia|].
    rewrite Hout, Hqueries, Hsame, Hsame'.
    split; [discriminate|]. split; [lia|]. split; [reflexivity|].
    intros H. discriminate H.
Qed.

(** C4 at [success_world]: the third answer is the first terminal one. *)
Lemma loop_exits_on_first_terminal_witness :
  outcome success_world configured 9 hello <> Pending
  /\ status_queries (trace success_world configured 9 hello) <= 3
  /\ run success_world configured 9 hello = run success_world configured 3 hello
  /\ (convertible (property (object_value [("id", "abc123")]) "id") = true ->
      status_queries (trace success_world configured 9 hello) = 3
      /\ In (Respond 500
               (failure_payload
                  (object_value [("status", "done");
                                 ("result_url", "https://cdn/video.mp4")])))
            (responses (trace success_world configured 9 hello))).
Proof.
  apply (loop_exits_on_first_terminal success_world configured hello
           (JString "Hello world") (object_value [("id", "abc123")]) 2).
  - apply submitted_hello. reflexivity.
  - exact first_terminal_success.
  - lia.
Defined.

(** C5: a status query that fails in transit ends the loop.  When the
    [k]-th query is the first one not answered with a parsed body (its
    [fetch] rejects, or its body does not parse), the handler settles with
    one 502 response, at most [k + 1] status queries are issued whatever
    fuel is left, and more fuel changes nothing.  When the job identifier
    has a string form, so that the queries are issued at all, the failed
    query is the last of exactly [k + 1]: its exception reaches the
    [catch], and the 502 response carries the message of that error. *)
Theorem transport_failure_aborts_loop w env req text createData k e :
  submitted w env req text createData ->
  (forall i, i < k -> exists u, answers w i u /\ terminal u = false) ->
  fails_in_transit w k e ->
  forall fuel, k < fuel ->
    outcome w env fuel req = Return tt
    /\ status_queries (trace w env fuel req) <= S k
    /\ (exists e',
          responses (trace w env fuel req)
          = [Respond 502 (provider_error_payload e')])
    /\ run w env fuel req = run w env (S k) req
    /\ (convertible (property createData "id") = true ->
        status_queries (trace w env fuel req) = S k
        /\ responses (trace w env fuel req)
           = [Respond 502 (provider_error_payload e)]).
Proof.
  intros Hsub Hpending Hfail fuel Hfuel.
  destruct (convertible (property createData "id")) eqn:Hconv.
  - assert (Hrun : run w env fuel req = run w env (S k) req
                   /\ fst (run w env fuel req) = Return tt
                   /\ status_queries (effects (snd (run w env fuel req))) = S k
                   /\ responses (effects (snd (run w env fuel req)))
                      = [Respond 502 (provider_error_payload e)]).
    { rewrite !(run_submitted w env req text createData _ Hsub).
      pose proof (pending_until_entry w env text createData k Hpending) as Hentry.
      set (s := loop_entry w env text createData) in *.
      set (auth := authorization env).
      set (id := property createData "id") in *.
      destruct Hfail as [Hreject | (rep & Hrep & Hjson)].
      - rewrite (session_fetch_rejected w env id Hconv k fuel e s
                   Hentry Hreject Hfuel).
        rewrite (session_fetch_rejected w env id Hconv k (S k) e s
                   Hentry Hreject (Nat.lt_succ_diag_r k)).
        fold auth.
        set (s' := queried w id auth (turns w id auth k s)).
        assert (Hsent : headersSent s' = false)
          by (unfold s'; cbn [queried headersSent]; now rewrite turns_headersSent).
        destruct (finish_thrown e s' Hsent) as (Hfst & Hsnd).
        rewrite Hfst, Hsnd, status_queries_app, responses_app.
        unfold s'. cbn [queried effects].
        rewrite !status_queries_app, !responses_app,
          turns_status_queries, turns_responses.
        repeat split; cbn; lia.
      - rewrite (session_body_rejected w env id Hconv k fuel rep e s
                   Hentry Hrep Hjson Hfuel).
        rewrite (session_body_rejected w env id Hconv k (S k) rep e s
                   Hentry Hrep Hjson (Nat.lt_succ_diag_r k)).
        fold auth.
        set (s' := turns w id auth (S k) s).
        assert (Hsent : headersSent s' = false)
          by (unfold s'; now rewrite turns_headersSent).
        destruct (finish_thrown e s' Hsent) as (Hfst & Hsnd).
        rewrite Hfst, Hsnd, status_queries_app, responses_app.
        unfold s'. rewrite turns_status_queries, turns_responses.
        repeat split; cbn; lia. }
    destruct Hrun as (Hsame & Hout & Hqueries & Hresponses).
    unfold outcome, trace, final.
    rewrite Hout, Hqueries, Hresponses.
    split; [reflexivity|]. split; [lia|].
    split; [exists e; reflexivity|]. split; [exact Hsame|].
    intros _. split; reflexivity.
  - destruct (run_unconvertible w env req text createData fuel Hsub Hconv)
      as (Hout & Hqueries & Hresponses & Hsame); [lia|].
    destruct (run_unconvertible w env req text createData (S k) Hsub Hconv)
      as (_ & _ & _ & Hsame'); [lia|].
    rewrite Hout, Hqueries, Hresponses, Hsame, Hsame'.
    split; [reflexivity|]. split; [lia|].
    split; [exists conversion_error; reflexivity|]. split; [reflexivity|].
    intros H. discriminate H.
Qed.

(** C5 at [broken_world]: the second query is rejected by [fetch]. *)
Lemma transport_failure_witness :
  outcome broken_world configured 4 hello = Return tt
  /\ status_queries (trace broken_world configured 4 hello) <= 2
  /\ (exists e',
        responses (trace broken_world configured 4 hello)
        = [Respond 502 (provider_error_payload e')])
  /\ run broken_world configured 4 hello = run broken_world configured 2 hello
  /\ (convertible (property (object_value [("id", "abc123")]) "id") = true ->
      status_queries (trace broken_world configured 4 hello) = 2
      /\ responses (trace broken_world configured 4 hello)
         = [Respond 502
              (provider_error_payload (mkError TypeError "fetch failed"))]).
Proof.
  apply (transport_failure_aborts_loop broken_world configured hello
           (JString "Hello world") (object_value [("id", "abc123")]) 1).
  - apply submitted_hello. reflexivity.
  - intros i Hi. exists (object_value [("status", "pending")]). split.
    + exists pending_reply. split; [|reflexivity].
      destruct i as [|i]; [reflexivity | lia].
    + reflexivity.
  - left. reflexivity.
  - lia.
Defined.

(** ** The events of a computation *)

Section Emits.

Variable ok : Event -> Prop.

Lemma emits_silent {A} (m : M A) :
  (forall s, effects (snd (m s)) = effects s) -> emits ok m.
Proof.
  intros H s. exists []. rewrite app_nil_r. split; [apply H | constructor].
Qed.

Lemma emits_ret {A} (a : A) : emits ok (ret a).
Proof. apply emits_silent. reflexivity. Qed.

Lemma emits_throw {A} (e : JSError) : emits ok (throw e : M A).
Proof. apply emits_silent. reflexivity. Qed.

Lemma emits_pending {A} : emits ok (pending : M A).
Proof. apply emits_silent. reflexivity. Qed.

Lemma emits_bind {A B} (m : M A) (f : A -> M B) :
  emits ok m -> (forall a, emits ok (f a)) -> emits ok (bind m f).
Proof.
  intros Hm Hf s. unfold bind.
  destruct (Hm s) as (evs & Heq & Hok).
  destruct (m s) as [[a|e|] s1]; cbn [snd] in *.
  - destruct (Hf a s1) as (evs' & Heq' & Hok').
    exists (evs ++ evs'). rewrite Heq', Heq, app_assoc.
    split; [reflexivity | now apply Forall_app].
  - exists evs. auto.
  - exists evs. auto.
Qed.

Lemma emits_try_catch {A} (m : M A) (h : JSError -> M A) :
  emits ok m -> (forall e, emits ok (h e)) -> emits ok (try_catch m h).
Proof.
  intros Hm Hh s. unfold try_catch.
  destruct (Hm s) as (evs & Heq & Hok).
  destruct (m s) as [[a|e|] s1]; cbn [snd] in *.
  - exists evs. auto.
  - destruct (Hh e s1) as (evs' & Heq' & Hok').
    exists (evs ++ evs'). rewrite Heq', Heq, app_assoc.
    split; [reflexivity | now apply Forall_app].
  - exists evs. auto.
Qed.

Lemma emits_if {A} (b : bool) (m m' : M A) :
  emits ok m -> emits ok m' -> emits ok (if b then m else m').
Proof. destruct b; auto. Qed.

Lemma emits_emit (e : Event) : ok e -> emits ok (emit e).
Proof.
  intros He s. exists [(now s, e)]. split; [reflexivity|].
  constructor; [exact He | constructor].
Qed.

Lemma emits_log lvl args : emits ok (log lvl args).
Proof. apply emits_silent. reflexivity. Qed.

Lemma emits_member v key : emits ok (member v key).
Proof. unfold member. apply emits_if; [apply emits_throw | apply emits_ret]. Qed.

Lemma emits_destructure source v key : emits ok (destructure source v key).
Proof.
  unfold destructure. apply emits_if; [apply emits_throw | apply emits_ret].
Qed.

Lemma emits_res_status code : emits ok (res_status code).
Proof. apply emits_silent. reflexivity. Qed.

Lemma emits_res_json payload :
  (forall code, ok (Respond code payload)) -> emits ok (res_json payload).
Proof.
  intros He s. exists [(now s, Respond (statusCode s) payload)].
  split; [unfold res_json; destruct (headersSent s); reflexivity|].
  constructor; [apply He | constructor].
Qed.

Section WithWorld.

Variable w : World.

Lemma emits_settle least : emits ok (settle w least).
Proof. apply emits_silent. reflexivity. Qed.

Lemma emits_settle_fetch outcome : emits ok (settle_fetch w outcome).
Proof.
  unfold settle_fetch. apply emits_bind; [apply emits_settle|].
  intros _. destruct outcome; [apply emits_throw | apply emits_silent; reflexivity].
Qed.

Lemma emits_sleep ms : ok (Timer ms) -> emits ok (sleep w ms).
Proof.
  intros He. unfold sleep.
  apply emits_bind; [now apply emits_emit | intros _; apply emits_settle].
Qed.

Lemma emits_fetch_create auth payload :
  ok (FetchCreate auth payload) -> emits ok (fetch_create w auth payload).
Proof.
  intros He. unfold fetch_create.
  apply emits_bind; [now apply emits_emit | intros _; apply emits_settle_fetch].
Qed.

Lemma emits_fetch_status talkId auth :
  ok (FetchStatus talkId auth) -> emits ok (fetch_status w talkId auth).
Proof.
  intros He. unfold fetch_status.
  apply emits_if; [|apply emits_throw].
  apply emits_bind; [now apply emits_emit | intros _].
  apply emits_bind; [apply emits_silent; reflexivity | intros k].
  apply emits_settle_fetch.
Qed.

Lemma emits_consume {A} (r : Response) (view : Reply -> JSError + A) :
  ok (BodyRead (rid r)) -> emits ok (consume w r view).
Proof.
  intros He s. unfold consume.
  destruct (nth (rid r) (bodies s) true).
  - apply emits_bind; [apply emits_settle | intros _; apply emits_throw].
  - apply emits_bind; [apply emits_silent; reflexivity | intros _].
    apply emits_bind; [apply emits_settle | intros _].
    apply emits_bind; [now apply emits_emit | intros _].
    destruct (view (reply r)); [apply emits_throw | apply emits_ret].
Qed.

Lemma emits_poll fuel auth talkId :
  ok (Timer 3000) -> ok (FetchStatus talkId auth) -> (forall r, ok (BodyRead r)) ->
  forall cur, emits ok (poll w fuel auth talkId cur).
Proof.
  intros Htimer Hquery Hbody.
  induction fuel as [|fuel IH]; intros cur; cbn [poll];
    (apply emits_if; [|apply emits_ret]).
  - apply emits_pending.
  - apply emits_bind; [now apply emits_sleep | intros _].
    apply emits_bind; [apply emits_log | intros _].
    apply emits_bind; [now apply emits_fetch_status | intros r].
    apply emits_bind; [apply emits_consume, Hbody | exact IH].
Qed.

End WithWorld.

Lemma emits_conclude talkResult :
  (forall code payload, ok (Respond code payload)) -> emits ok (conclude talkResult).
Proof.
  intros He. unfold conclude.
  apply emits_bind; [apply emits_member | intros status].
  apply emits_bind.
  - apply emits_if; [|apply emits_log].
    apply emits_bind; [apply emits_log | intros _].
    apply emits_bind; [apply emits_member | intros logged].
    apply emits_bind; [apply emits_log | intros _].
    apply emits_bind; [apply emits_member | intros url].
    apply emits_res_json. intros code. apply He.
  - intros _. apply emits_bind; [apply emits_res_status | intros _].
    apply emits_res_json. intros code. apply He.
Qed.

Lemma emits_recover err :
  (forall code payload, ok (Respond code payload)) -> emits ok (recover err).
Proof.
  intros He. unfold recover.
  apply emits_bind; [apply emits_log | intros _].
  apply emits_bind; [apply emits_res_status | intros _].
  apply emits_res_json. intros code. apply He.
Qed.

End Emits.

Lemma emits_did_talk w env fuel req :
  emits (handler_event env) (did_talk w env fuel req).
Proof.
  unfold did_talk.
  apply emits_bind; [apply emits_destructure | intros text].
  apply emits_if.
  { apply emits_bind; [apply emits_res_status | intros _].
    apply emits_res_json. constructor. }
  apply emits_if.
  { apply emits_bind; [apply emits_res_status | intros _].
    apply emits_res_json. constructor. }
  apply emits_try_catch; [|intros e; apply emits_recover; constructor].
  unfold attempt.
  apply emits_bind; [apply emits_fetch_create; constructor | intros r].
  apply emits_bind; [apply emits_log | intros _].
  apply emits_bind.
  { apply emits_if; [|apply emits_ret].
    apply emits_bind; [apply emits_consume; constructor | intros detail].
    apply emits_res_json. constructor. }
  intros _.
  apply emits_bind; [apply emits_consume; constructor | intros createData].
  apply emits_bind; [apply emits_member | intros talkId].
  apply emits_bind; [apply emits_log | intros _].
  apply emits_bind; [apply emits_poll; constructor | intros talkResult].
  apply emits_conclude. constructor.
Qed.

(** Every event of a run is an event of the handler. *)
Lemma trace_events w env fuel req :
  Forall (fun x => handler_event env (snd x)) (trace w env fuel req).
Proof.
  destruct (emits_did_talk w env fuel req initial_state) as (evs & Heq & Hok).
  unfold trace, final, run. rewrite Heq. exact Hok.
Qed.

(** ** The request guard and the payload *)




(** C10: the avatar reference of the job-creation payload is a constant.
    Two runs that differ in [DID_SOURCE_URL] only are the same run, and in
    every run every job-creation call carries the [source_url] of the
    public D-ID bucket. *)
Theorem payload_ignores_source_url_setting w key url url' fuel req :
  run w (mkEnv key url) fuel req = run w (mkEnv key url') fuel req
  /\ forall t auth payload,
       In (t, FetchCreate auth payload) (trace w (mkEnv key url) fuel req) ->
       property payload "source_url"
       = JString "https://d-id-public-bucket.s3.us-west-2.amazonaws.com/alice.jpg".
Proof.
  split.
  - unfold run, did_talk. rewrite !sourceUrl_truthy. reflexivity.
  - intros t auth payload Hin.
    pose proof (trace_events w (mkEnv key url) fuel req) as Hall.
    rewrite Forall_forall in Hall. specialize (Hall _ Hin). cbn [snd] in Hall.
    inversion Hall; subst. reflexivity.
Qed.

(** ** The responses after the loop *)

(** C9, as stated, fails in its count: at [success_world] the handler
    attempts three responses, not two.  The 500 response after the success
    response throws inside the [try] (the response is already sent), so
    the [catch] attempts a 502 response as well. *)
Lemma failure_response_counterexample :
  first_terminal success_world 2
    (object_value [("status", "done"); ("result_url", "https://cdn/video.mp4")])
  /\ length (responses (trace success_world configured 9 hello)) = 3
  /\ nth_error (responses (trace success_world configured 9 hello)) 2
     = Some (Respond 502
               (JObject [("error", JString "D-ID error");
                         ("detail",
                          JString "Cannot set headers after they are sent to the client")])).
Proof.
  split; [exact first_terminal_success | split; reflexivity].
Qed.

(** C9, amended: the failure response follows every exit of the loop.
    When the loop is left with status [done], the success response
    carrying the video URL is sent first, the 500 response "D-ID
    processing failed", carrying the terminal payload, is attempted right
    after it, and as that attempt throws the [catch] attempts a third
    response, 502 with the message of that exception: three attempts in
    all.  When the loop is left with status [error], the 500 response is
    the only one. *)
Theorem failure_response_follows_every_exit w env req text createData k v :
  submitted w env req text createData ->
  convertible (property createData "id") = true ->
  first_terminal w k v ->
  forall fuel, k < fuel ->
    responses (trace w env fuel req)
    = if strict_eq_string (property v "status") "done"
      then [Respond 200 (success_payload v);
            Respond 500 (failure_payload v);
            Respond 502 (provider_error_payload headers_sent_error)]
      else [Respond 500 (failure_payload v)].
Proof.
  intros Hsub Hconv Hfirst fuel Hfuel.
  destruct (strict_eq_string (property v "status") "done") eqn:Hdone.
  - destruct (run_done w env req text createData k v fuel
                Hsub Hconv Hfirst Hdone Hfuel) as (_ & _ & Hresponses).
    exact Hresponses.
  - destruct (run_failed w env req text createData k v fuel
                Hsub Hconv Hfirst Hdone Hfuel) as (_ & _ & Hresponses).
    exact Hresponses.
Qed.

(** C9, amended, at [success_world]: the 500 response follows the video
    URL, and the 502 response follows both. *)
Lemma failure_response_witness :
  responses (trace success_world configured 9 hello)
  = [Respond 200 (JObject [("videoUrl", JString "https://cdn/video.mp4")]);
     Respond 500
       (failure_payload
          (object_value [("status", "done");
                         ("result_url", "https://cdn/video.mp4")]));
     Respond 502 (provider_error_payload headers_sent_error)].
Proof.
  exact (failure_response_follows_every_exit success_world configured hello
           (JString "Hello world") (object_value [("id", "abc123")]) 2
           (object_value [("status", "done"); ("result_url", "https://cdn/video.mp4")])
           (submitted_hello success_world [("id", "abc123")] eq_refl)
           eq_refl first_terminal_success 9 ltac:(lia)).
Defined.

(** C8, as stated, fails: when the terminal answer is [{status: "done"}],
    with no [result_url], the [videoUrl] of the success response is not
    unset: it is that answer. *)
Lemma done_without_url_counterexample :
  first_terminal bare_done_world 0 (object_value [("status", "done")])
  /\ property (object_value [("status", "done")]) "result_url" = JUndefined
  /\ nth_error (responses (trace bare_done_world configured 1 hello)) 0
     = Some (Respond 200 (JObject [("videoUrl", object_value [("status", "done")])]))
  /\ unset (property (JObject [("videoUrl", object_value [("status", "done")])])
                     "videoUrl") = false.
Proof.
  split; [|repeat split].
  split; [intros i Hi; lia | split; [eexists; split; reflexivity | reflexivity]].
Qed.

(** C8, amended: when the loop is left with status [done] (the status
    queries having been issued, so for a job identifier with a string
    form) and the terminal answer has no [result_url] (or a null one),
    this is no error: the success response is sent, and its [videoUrl] is
    the whole terminal answer. *)
Theorem done_without_url_returns_payload w env req text createData k v :
  submitted w env req text createData ->
  convertible (property createData "id") = true ->
  first_terminal w k v ->
  strict_eq_string (property v "status") "done" = true ->
  nullish (property v "result_url") = true ->
  forall fuel, k < fuel ->
    exists rest,
      responses (trace w env fuel req)
      = Respond 200 (JObject [("videoUrl", v)]) :: rest.
Proof.
  intros Hsub Hconv Hfirst Hdone Hurl fuel Hfuel.
  destruct (run_done w env req text createData k v fuel
              Hsub Hconv Hfirst Hdone Hfuel) as (_ & _ & Hresponses).
  rewrite Hresponses. unfold success_payload, coalesce. rewrite Hurl.
  eexists. reflexivity.
Qed.

(** C8, amended, at [bare_done_world]. *)
Lemma done_without_url_witness :
  exists rest,
    responses (trace bare_done_world configured 1 hello)
    = Respond 200 (JObject [("videoUrl", object_value [("status", "done")])]) :: rest.
Proof.
  apply (done_without_url_returns_payload bare_done_world configured hello
           (JString "Hello world") (object_value [("id", "abc123")]) 0).
  - apply submitted_hello. reflexivity.
  - reflexivity.
  - split; [intros i Hi; lia | split; [eexists; split; reflexivity | reflexivity]].
  - reflexivity.
  - reflexivity.
  - lia.
Defined.

(** ** A job created without an identifier *)

(** A loop that is entered for an identifier with a string form issues its
    first status query, whatever comes after. *)
Lemma poll_first_query w fuel auth talkId cur s :
  convertible talkId = true ->
  loop_cond cur = true ->
  exists evs,
    effects (snd (poll w (S fuel) auth talkId cur s))
    = effects s
      ++ [(now s, Timer 3000);
          (now s + (3000 + await_delay w (awaits s)), FetchStatus talkId auth)]
      ++ evs.
Proof.
  intros Hconv Hcur. rewrite poll_turn, Hcur, Hconv.
  destruct (status_reply w (polls s)) as [e|rep].
  - exists []. cbn [snd queried effects]. now rewrite app_nil_r.
  - destruct (reply_json rep) as [e|v].
    + eexists. cbn [snd answered queried effects now awaits].
      rewrite <- !app_assoc. reflexivity.
    + destruct (emits_poll any_event w fuel auth talkId I I (fun _ => I) v
                  (answered w talkId auth s)) as (evs & Heq & _).
      rewrite Heq. eexists. cbn [answered queried effects now awaits].
      rewrite <- !app_assoc. reflexivity.
Qed.

Lemma session_first_query w env fuel talkId s :
  convertible talkId = true ->
  exists evs,
    effects (snd (session w env (S fuel) talkId s))
    = effects s
      ++ [(now s, Timer 3000);
          (now s + (3000 + await_delay w (awaits s)),
           FetchStatus talkId (authorization env))]
      ++ evs.
Proof.
  intros Hconv. rewrite session_split.
  destruct (poll_first_query w fuel (authorization env) talkId JUndefined s
              Hconv loop_cond_initial) as (evs & Heq).
  destruct (poll w (S fuel) (authorization env) talkId JUndefined s)
    as [[v|e|] s']; cbn [snd] in Heq.
  - destruct (emits_try_catch any_event (conclude v) recover
                (emits_conclude any_event v (fun _ _ => I))
                (fun e => emits_recover any_event e (fun _ _ => I)) s')
      as (evs' & Heq' & _).
    rewrite Heq', Heq. exists (evs ++ evs'). now rewrite <- !app_assoc.
  - destruct (emits_recover any_event e (fun _ _ => I) s') as (evs' & Heq' & _).
    rewrite Heq', Heq. exists (evs ++ evs'). now rewrite <- !app_assoc.
  - exists evs. exact Heq.
Qed.

(** C2, as stated, fails: the creation call answers [{}], a body with no
    [id]; the handler then issues status queries (two within two turns of
    the loop) and has signalled nothing. *)
Lemma missing_id_counterexample :
  create_reply anonymous_world = inr (object_reply true [])
  /\ property (object_value []) "id" = JUndefined
  /\ status_queries (trace anonymous_world configured 2 hello) = 2
  /\ responses (trace anonymous_world configured 2 hello) = []
  /\ outcome anonymous_world configured 2 hello = Pending.
Proof. repeat split. Qed.

(** C2, amended: a creation answer whose JSON body has no [id] is not
    rejected.  The handler takes the job identifier to be [undefined] and
    enters the loop as for any other job: after the creation call and the
    read of its body it sets the 3000 ms timer and then issues the status
    query for [undefined], no response having been attempted. *)
Theorem missing_id_is_polled_as_undefined w env req text createData :
  submitted w env req text createData ->
  property createData "id" = JUndefined ->
  forall fuel,
    exists t0 t1 rest,
      trace w env (S fuel) req
      = [(0, FetchCreate (authorization env) (create_payload text));
         (t0, BodyRead 0);
         (t0, Timer 3000);
         (t1, FetchStatus JUndefined (authorization env))]
        ++ rest
      /\ t0 + 3000 <= t1.
Proof.
  intros Hsub Hid fuel.
  unfold trace, final.
  rewrite (run_submitted w env req text createData (S fuel) Hsub), Hid.
  destruct (session_first_query w env fuel JUndefined
              (loop_entry w env text createData) eq_refl) as (evs & Heq).
  rewrite Heq. cbn [loop_entry effects now awaits].
  do 3 eexists. split; [reflexivity | lia].
Qed.

(** C2, amended, at [anonymous_world]. *)
Lemma missing_id_witness :
  exists t0 t1 rest,
    trace anonymous_world configured 2 hello
    = [(0, FetchCreate (authorization configured)
                       (create_payload (JString "Hello world")));
       (t0, BodyRead 0);
       (t0, Timer 3000);
       (t1, FetchStatus JUndefined (authorization configured))]
      ++ rest
    /\ t0 + 3000 <= t1.
Proof.
  apply (missing_id_is_polled_as_undefined anonymous_world configured hello
           (JString "Hello world") (object_value [])).
  - apply submitted_hello. reflexivity.
  - reflexivity.
Defined.

(** ** Pacing *)

Lemma split_snoc {A} (pre post tr : list A) (x y : A) :
  pre ++ x :: post = tr ++ [y] ->
  (post = [] /\ pre = tr /\ x = y)
  \/ exists post', post = post' ++ [y] /\ tr = pre ++ x :: post'.
Proof.
  intros Heq.
  destruct post as [|z post] using rev_ind.
  - left. apply app_inj_tail in Heq. destruct Heq. auto.
  - right. exists post. clear IHpost.
    change (pre ++ x :: post ++ [z]) with (pre ++ (x :: post) ++ [z]) in Heq.
    rewrite app_assoc in Heq. apply app_inj_tail in Heq.
    destruct Heq as [Htr Hz]. subst. auto.
Qed.

Lemma paced_nil : paced [].
Proof. intros [|x pre] t talkId auth post Heq; discriminate Heq. Qed.

Lemma paced_snoc_quiet tr t e :
  paced tr -> is_status_query e = false -> paced (tr ++ [(t, e)]).
Proof.
  intros Htr He pre t' talkId auth post Heq.
  symmetry in Heq. apply split_snoc in Heq.
  destruct Heq as [(_ & _ & Hx) | (post' & _ & Htr')].
  - inversion Hx; subst. discriminate He.
  - eapply Htr. exact Htr'.
Qed.

Lemma paced_app_quiet tr evs :
  paced tr -> Forall (fun x => is_status_query (snd x) = false) evs ->
  paced (tr ++ evs).
Proof.
  intros Htr Hevs. induction evs as [|[t e] evs IH] using rev_ind.
  - now rewrite app_nil_r.
  - apply Forall_app in Hevs. destruct Hevs as [Hevs He].
    rewrite app_assoc. apply paced_snoc_quiet; [now apply IH|].
    now inversion He.
Qed.

Lemma paced_snoc_query older t0 t talkId auth :
  paced (older ++ [(t0, BodyRead (status_queries older)); (t0, Timer 3000)]) ->
  Forall (fun x => fst x <= t0) older ->
  t0 + 3000 <= t ->
  paced ((older ++ [(t0, BodyRead (status_queries older)); (t0, Timer 3000)])
         ++ [(t, FetchStatus talkId auth)]).
Proof.
  intros Htr Holder Ht pre t' talkId' auth' post Heq.
  symmetry in Heq. apply split_snoc in Heq.
  destruct Heq as [(_ & Hpre & Hx) | (post' & _ & Htr')].
  - inversion Hx; subst. exists older, t0. auto.
  - eapply Htr. exact Htr'.
Qed.

Section Pace.

Variable w : World.
Variable talkId : JSValue.
Variable auth : string.

Lemma ready_queried s : ready s -> paced (effects (queried w talkId auth s)).
Proof.
  intros (Hpaced & Htimes & _ & older & Heq).
  cbn [queried effects]. rewrite Heq in Htimes, Hpaced |- *.
  set (t0 := now s) in *.
  set (t := t0 + (3000 + await_delay w (awaits s))).
  assert (Hshape :
    (older ++ [(t0, BodyRead (status_queries older))])
      ++ [(t0, Timer 3000)] ++ [(t, FetchStatus talkId auth)]
    = (older ++ [(t0, BodyRead (status_queries older)); (t0, Timer 3000)])
      ++ [(t, FetchStatus talkId auth)])
    by (now rewrite <- !app_assoc).
  rewrite Hshape.
  apply paced_snoc_query.
  - change (older ++ [(t0, BodyRead (status_queries older)); (t0, Timer 3000)])
      with (older ++ [(t0, BodyRead (status_queries older))] ++ [(t0, Timer 3000)]).
    rewrite app_assoc. now apply paced_snoc_quiet.
  - apply Forall_app in Htimes. tauto.
  - unfold t. lia.
Qed.

Lemma ready_answered s : ready s -> ready (answered w talkId auth s).
Proof.
  intros Hready.
  pose proof (ready_queried s Hready) as Hq.
  destruct Hready as (Hpaced & Htimes & Hbodies & older & Heq).
  unfold ready. cbn [answered effects now bodies awaits].
  repeat split.
  - now apply paced_snoc_quiet.
  - cbn [queried effects now awaits].
    rewrite !Forall_app. repeat split.
    + eapply Forall_impl; [|exact Htimes]. cbn. intros x Hx. lia.
    + repeat constructor; cbn; lia.
    + repeat constructor; cbn; lia.
    + repeat constructor; cbn; lia.
  - rewrite length_app, status_queries_app. cbn [queried effects].
    rewrite !status_queries_app, Hbodies. cbn. lia.
  - exists (effects (queried w talkId auth s)).
    assert (Hcount : status_queries (effects (queried w talkId auth s))
                     = length (bodies s)).
    { cbn [queried effects]. rewrite !status_queries_app, Hbodies. cbn. lia. }
    rewrite Hcount. reflexivity.
Qed.

Lemma poll_paced fuel :
  forall cur s, ready s -> paced (effects (snd (poll w fuel auth talkId cur s))).
Proof.
  induction fuel as [|fuel IH]; intros cur s Hready.
  - cbn [poll]. destruct (loop_cond cur); apply Hready.
  - rewrite poll_turn. destruct (loop_cond cur); [|apply Hready].
    destruct (convertible talkId);
      [|cbn [snd waited effects];
        apply paced_snoc_quiet; [apply Hready | reflexivity]].
    destruct (status_reply w (polls s)) as [e|rep].
    + now apply ready_queried.
    + destruct (reply_json rep) as [e|v].
      * now apply ready_answered.
      * apply IH. now apply ready_answered.
Qed.

End Pace.

Lemma session_paced w env fuel talkId s :
  ready s -> paced (effects (snd (session w env fuel talkId s))).
Proof.
  intros Hready. rewrite session_split.
  pose proof (poll_paced w talkId (authorization env) fuel JUndefined s Hready)
    as Hpoll.
  destruct (poll w fuel (authorization env) talkId JUndefined s)
    as [[v|e|] s']; cbn [snd] in Hpoll.
  - destruct (emits_try_catch not_a_query (conclude v) recover
                (emits_conclude not_a_query v (fun _ _ => eq_refl))
                (fun e => emits_recover not_a_query e (fun _ _ => eq_refl)) s')
      as (evs & Heq & Hevs).
    rewrite Heq. now apply paced_app_quiet.
  - destruct (emits_recover not_a_query e (fun _ _ => eq_refl) s')
      as (evs & Heq & Hevs).
    rewrite Heq. now apply paced_app_quiet.
  - exact Hpoll.
Qed.

Lemma ready_entry w env text createData : ready (loop_entry w env text createData).
Proof.
  unfold ready. cbn [loop_entry effects now bodies]. repeat split.
  - apply (paced_app_quiet []); [apply paced_nil|].
    repeat constructor.
  - repeat constructor; cbn; lia.
  - exists [(0, FetchCreate (authorization env) (create_payload text))].
    reflexivity.
Qed.

(** C6: status queries are sequential, each after a full wait.  In a
    session, every status query of the trace is preceded by the read of
    the previous response (the creation's for the first query) at some time
    [t0] and by the 3000 ms timer set at [t0], with nothing in between;
    every older event happened by [t0], and the query is issued at
    [t0 + 3000] at the earliest. *)
Theorem status_queries_wait_their_turn w env req text createData fuel :
  submitted w env req text createData ->
  forall pre t talkId auth post,
    trace w env fuel req = pre ++ (t, FetchStatus talkId auth) :: post ->
    exists older t0,
      pre = older ++ [(t0, BodyRead (status_queries older)); (t0, Timer 3000)]
      /\ t0 + 3000 <= t
      /\ Forall (fun x => fst x <= t0) older.
Proof.
  intros Hsub.
  change (paced (trace w env fuel req)).
  unfold trace, final.
  rewrite (run_submitted w env req text createData fuel Hsub).
  apply session_paced, ready_entry.
Qed.

(** C6 at [success_world], for the first status query of the run: it is
    issued at 3024, the timer before it having been set at 15. *)
Lemma status_queries_wait_witness :
  exists older t0,
    firstn 3 (trace success_world configured 9 hello)
    = older ++ [(t0, BodyRead (status_queries older)); (t0, Timer 3000)]
    /\ t0 + 3000 <= 3024
    /\ Forall (fun x => fst x <= t0) older.
Proof.
  apply (status_queries_wait_their_turn success_world configured hello
           (JString "Hello world") (object_value [("id", "abc123")]) 9
           (submitted_hello success_world [("id", "abc123")] eq_refl)
           (firstn 3 (trace success_world configured 9 hello))
           3024 (JString "abc123") (authorization configured)
           (skipn 4 (trace success_world configured 9 hello))).
  vm_compute. reflexivity.
Defined.

(** ** A rejected job creation *)

(** A creation answered without [ok]: the rejection is sent with the body
    as detail, but the handler goes on to read the body a second time;
    that read throws, the [catch] attempts a second response, and this
    attempt throws in turn.  No status query is issued. *)
Lemma rejected_creation_run w env req fuel rep raw :
  nullish (body req) = false ->
  truthy (property (body req) "text") = true ->
  truthy (env_value (DID_API_KEY env)) = true ->
  create_reply w = inr rep ->
  reply_ok rep = false ->
  reply_text rep = inr raw ->
  outcome w env fuel req = Throw headers_sent_error
  /\ events (final w env fuel req)
     = [FetchCreate (authorization env) (create_payload (property (body req) "text"));
        BodyRead 0;
        Respond 200 (rejection_payload raw);
        Respond 502 (provider_error_payload body_unusable_error)].
Proof.
  intros Hbody Htext Hkey Hcreate Hok Hraw.
  unfold outcome, events, final, run, did_talk, initial_state.
  run_ops. rewrite Hbody, Htext, Hkey, sourceUrl_truthy.
  cbv [negb orb].
  unfold attempt. run_ops. rewrite Hcreate. run_ops. rewrite Hok.
  cbv [negb]. cbv [resp_text resp_json consume]. run_ops.
  cbv [nth mark_used length app]. run_ops. rewrite Hraw. run_ops.
  cbv [nth recover]. run_ops.
  split; reflexivity.
Qed.

(** C1: at a rejected creation the handler does not stop.  For the 401
    answer of [rejected_world] the run is: the creation call, the read of
    its body, the rejection response (status 200), then a second response
    attempt (502) from the [catch], reached because the handler went on to
    a second read of the body; the handler ends by throwing. *)
Theorem rejected_creation_falls_through :
  outcome rejected_world configured 3 hello = Throw headers_sent_error
  /\ events (final rejected_world configured 3 hello)
     = [FetchCreate "Basic c2VjcmV0" (create_payload (JString "Hello world"));
        BodyRead 0;
        Respond 200
          (rejection_payload
             (object_text [("kind", "AuthorizationError");
                           ("description", "user unauthenticated")]));
        Respond 502
          (JObject [("error", JString "D-ID error");
                    ("detail",
                     JString "Body is unusable: Body has already been read")])]
  /\ status_queries (trace rejected_world configured 3 hello) = 0.
Proof. repeat split. Qed.

(** * Further properties of the handler *)

(** ** The ways out before the loop *)

(** Evaluates the handler up to its next case distinction. *)
Ltac enter_attempt Hbody Htext Hkey :=
  unfold outcome, trace, final, run, did_talk, initial_state;
  run_ops; rewrite Hbody, Htext, Hkey, sourceUrl_truthy;
  cbv [negb orb]; unfold attempt; run_ops.

Lemma path_no_body w env fuel req :
  nullish (body req) = true ->
  outcome w env fuel req
  = Throw (destructure_error "req.body" (body req) "text")
  /\ trace w env fuel req = [].
Proof.
  intros Hbody.
  unfold outcome, trace, final, run, did_talk, initial_state.
  run_ops. rewrite Hbody. run_ops. split; reflexivity.
Qed.

Lemma path_no_text w env fuel req :
  nullish (body req) = false ->
  truthy (property (body req) "text") = false ->
  outcome w env fuel req = Return tt
  /\ trace w env fuel req
     = [(0, Respond 400 (JObject [("error", JString "text required")]))].
Proof.
  intros Hbody Htext.
  unfold outcome, trace, final, run, did_talk, initial_state.
  run_ops. rewrite Hbody, Htext. cbv [negb]. run_ops. split; reflexivity.
Qed.

Lemma path_no_key w env fuel req :
  nullish (body req) = false ->
  truthy (property (body req) "text") = true ->
  truthy (env_value (DID_API_KEY env)) = false ->
  outcome w env fuel req = Return tt
  /\ trace w env fuel req = [(0, Respond 500 config_error_payload)].
Proof.
  intros Hbody Htext Hkey.
  unfold outcome, trace, final, run, did_talk, initial_state.
  run_ops. rewrite Hbody, Htext, Hkey. cbv [negb orb]. run_ops.
  split; reflexivity.
Qed.

Lemma path_fetch_rejected w env fuel req e :
  attempted env req ->
  create_reply w = inl e ->
  outcome w env fuel req = Return tt
  /\ trace w env fuel req
     = [creation_call env req;
        (await_delay w 0, Respond 502 (provider_error_payload e))].
Proof.
  intros (Hbody & Htext & Hkey) Hcreate.
  enter_attempt Hbody Htext Hkey. rewrite Hcreate. run_ops.
  cbv [recover]. run_ops. split; reflexivity.
Qed.

Lemma path_rejected_unread w env fuel req rep e :
  attempted env req ->
  create_reply w = inr rep -> reply_ok rep = false -> reply_text rep = inl e ->
  outcome w env fuel req = Return tt
  /\ trace w env fuel req
     = [creation_call env req;
        (await_delay w 0 + await_delay w 1, BodyRead 0);
        (await_delay w 0 + await_delay w 1, Respond 502 (provider_error_payload e))].
Proof.
  intros (Hbody & Htext & Hkey) Hcreate Hok Hraw.
  enter_attempt Hbody Htext Hkey. rewrite Hcreate. run_ops. rewrite Hok.
  cbv [negb]. cbv [resp_text resp_json consume]. run_ops.
  cbv [nth mark_used length app]. run_ops. rewrite Hraw. run_ops.
  cbv [recover]. run_ops. split; reflexivity.
Qed.

Lemma path_rejected w env fuel req rep raw :
  attempted env req ->
  create_reply w = inr rep -> reply_ok rep = false -> reply_text rep = inr raw ->
  outcome w env fuel req = Throw headers_sent_error
  /\ trace w env fuel req
     = [creation_call env req;
        (await_delay w 0 + await_delay w 1, BodyRead 0);
        (await_delay w 0 + await_delay w 1, Respond 200 (rejection_payload raw));
        (await_delay w 0 + await_delay w 1 + await_delay w 2,
         Respond 502 (provider_error_payload body_unusable_error))].
Proof.
  intros (Hbody & Htext & Hkey) Hcreate Hok Hraw.
  enter_attempt Hbody Htext Hkey. rewrite Hcreate. run_ops. rewrite Hok.
  cbv [negb]. cbv [resp_text resp_json consume]. run_ops.
  cbv [nth mark_used length app]. run_ops. rewrite Hraw. run_ops.
  cbv [nth recover]. run_ops. split; reflexivity.
Qed.

Lemma path_unparseable w env fuel req rep e :
  attempted env req ->
  create_reply w = inr rep -> reply_ok rep = true -> reply_json rep = inl e ->
  outcome w env fuel req = Return tt
  /\ trace w env fuel req
     = [creation_call env req;
        (await_delay w 0 + await_delay w 1, BodyRead 0);
        (await_delay w 0 + await_delay w 1, Respond 502 (provider_error_payload e))].
Proof.
  intros (Hbody & Htext & Hkey) Hcreate Hok Hjson.
  enter_attempt Hbody Htext Hkey. rewrite Hcreate. run_ops. rewrite Hok.
  cbv [negb]. run_ops. cbv [resp_json consume]. run_ops.
  cbv [nth mark_used length app]. run_ops. rewrite Hjson. run_ops.
  cbv [recover]. run_ops. split; reflexivity.
Qed.

Lemma path_null_data w env fuel req rep createData :
  attempted env req ->
  create_reply w = inr rep -> reply_ok rep = true ->
  reply_json rep = inr createData -> nullish createData = true ->
  outcome w env fuel req = Return tt
  /\ trace w env fuel req
     = [creation_call env req;
        (await_delay w 0 + await_delay w 1, BodyRead 0);
        (await_delay w 0 + await_delay w 1,
         Respond 502
           (provider_error_payload (null_property_error createData "id")))].
Proof.
  intros (Hbody & Htext & Hkey) Hcreate Hok Hjson Hnull.
  enter_attempt Hbody Htext Hkey. rewrite Hcreate. run_ops. rewrite Hok.
  cbv [negb]. run_ops. cbv [resp_json consume]. run_ops.
  cbv [nth mark_used length app]. run_ops. rewrite Hjson. run_ops.
  rewrite Hnull. run_ops. cbv [recover]. run_ops. split; reflexivity.
Qed.

(** The case distinctions of the handler, in the order in which it makes
    them. *)
Lemma did_talk_cases w env req (P : Prop) :
  (nullish (body req) = true -> P) ->
  (nullish (body req) = false -> truthy (property (body req) "text") = false -> P) ->
  (nullish (body req) = false -> truthy (property (body req) "text") = true ->
   truthy (env_value (DID_API_KEY env)) = false -> P) ->
  (attempted env req -> forall e, create_reply w = inl e -> P) ->
  (attempted env req -> forall rep e,
     create_reply w = inr rep -> reply_ok rep = false -> reply_text rep = inl e -> P) ->
  (attempted env req -> forall rep raw,
     create_reply w = inr rep -> reply_ok rep = false -> reply_text rep = inr raw -> P) ->
  (attempted env req -> forall rep e,
     create_reply w = inr rep -> reply_ok rep = true -> reply_json rep = inl e -> P) ->
  (attempted env req -> forall rep createData,
     create_reply w = inr rep -> reply_ok rep = true ->
     reply_json rep = inr createData -> nullish createData = true -> P) ->
  (forall createData,
     submitted w env req (property (body req) "text") createData -> P) ->
  P.
Proof.
  intros Hno_body Hno_text Hno_key Hfetch Hunread Hrejected Hunparseable Hnull Hsub.
  destruct (nullish (body req)) eqn:Hbody; [now apply Hno_body|].
  destruct (truthy (property (body req) "text")) eqn:Htext; [|now apply Hno_text].
  destruct (truthy (env_value (DID_API_KEY env))) eqn:Hkey; [|now apply Hno_key].
  assert (Hattempted : attempted env req) by (repeat split; assumption).
  destruct (create_reply w) as [e|rep] eqn:Hcreate; [now apply (Hfetch Hattempted e)|].
  destruct (reply_ok rep) eqn:Hok.
  - destruct (reply_json rep) as [e|createData] eqn:Hjson;
      [now apply (Hunparseable Hattempted rep e)|].
    destruct (nullish createData) eqn:Hdata;
      [now apply (Hnull Hattempted rep createData)|].
    apply (Hsub createData). unfold submitted. repeat split; try assumption.
    exists rep. auto.
  - destruct (reply_text rep) as [e|raw] eqn:Hraw;
      [now apply (Hunread Hattempted rep e) | now apply (Hrejected Hattempted rep raw)].
Qed.

(** ** The loop in any world *)

(** Whatever the status queries are answered, the loop leaves the response
    object alone, and the value it returns is one that ends it. *)
Lemma poll_leaves_res w auth talkId fuel :
  forall cur s,
    headersSent (snd (poll w fuel auth talkId cur s)) = headersSent s
    /\ statusCode (snd (poll w fuel auth talkId cur s)) = statusCode s
    /\ responses (effects (snd (poll w fuel auth talkId cur s)))
       = responses (effects s)
    /\ forall v, fst (poll w fuel auth talkId cur s) = Return v ->
                 loop_cond v = false.
Proof.
  assert (Hq : forall s,
            headersSent (queried w talkId auth s) = headersSent s
            /\ statusCode (queried w talkId auth s) = statusCode s
            /\ responses (effects (queried w talkId auth s)) = responses (effects s)).
  { intros s. cbn [queried headersSent statusCode effects].
    rewrite !responses_app. cbn. rewrite !app_nil_r. auto. }
  assert (Ha : forall s,
            headersSent (answered w talkId auth s) = headersSent s
            /\ statusCode (answered w talkId auth s) = statusCode s
            /\ responses (effects (answered w talkId auth s)) = responses (effects s)).
  { intros s. destruct (Hq s) as (H1 & H2 & H3).
    cbn [answered headersSent statusCode effects].
    rewrite responses_app, H3. cbn. rewrite app_nil_r. auto. }
  induction fuel as [|fuel IH]; intros cur s.
  - cbn [poll]. destruct (loop_cond cur) eqn:Hcur; cbn [fst snd pending ret].
    + repeat split. discriminate.
    + repeat split. intros v Hv. now inversion Hv; subst.
  - rewrite poll_turn. destruct (loop_cond cur) eqn:Hcur.
    + destruct (convertible talkId);
        [|cbn [fst snd waited headersSent statusCode effects];
          rewrite responses_app; cbn; rewrite app_nil_r;
          repeat split; discriminate].
      destruct (status_reply w (polls s)) as [e|rep]; cbn [fst snd].
      * destruct (Hq s) as (H1 & H2 & H3). repeat split; auto. discriminate.
      * destruct (Ha s) as (H1 & H2 & H3).
        destruct (reply_json rep) as [e|v]; cbn [fst snd].
        -- repeat split; auto. discriminate.
        -- destruct (IH v (answered w talkId auth s)) as (I1 & I2 & I3 & I4).
           rewrite I1, I2, I3. auto.
    + cbn [fst snd]. repeat split. intros v Hv. now inversion Hv; subst.
Qed.

(** How many responses a session attempts, by how it ends. *)
Lemma session_delivery w env fuel talkId s :
  headersSent s = false ->
  responses (effects s) = [] ->
  match fst (session w env fuel talkId s) with
  | Return _ => length (responses (effects (snd (session w env fuel talkId s)))) = 1
  | Throw _ => length (responses (effects (snd (session w env fuel talkId s)))) = 3
  | Pending => responses (effects (snd (session w env fuel talkId s))) = []
  end.
Proof.
  intros Hsent Hnone. rewrite session_split.
  destruct (poll_leaves_res w (authorization env) talkId fuel JUndefined s)
    as (H1 & _ & H3 & H4).
  destruct (poll w fuel (authorization env) talkId JUndefined s) as [[v|e|] s'];
    cbn [fst snd] in *.
  - specialize (H4 v eq_refl). rewrite loop_cond_terminal in H4.
    apply negb_false_iff in H4.
    rewrite Hsent in H1. rewrite Hnone in H3.
    destruct (strict_eq_string (property v "status") "done") eqn:Hdone.
    + destruct (finish_done v s' Hdone H1) as (Hfst & Hsnd).
      rewrite Hfst, Hsnd, responses_app, H3. reflexivity.
    + destruct (finish_error v s' (terminal_not_nullish v H4) Hdone H1)
        as (Hfst & Hsnd).
      rewrite Hfst, Hsnd, responses_app, H3. reflexivity.
  - rewrite Hsent in H1. rewrite Hnone in H3.
    destruct (finish_thrown e s' H1) as (Hfst & Hsnd).
    rewrite Hfst, Hsnd, responses_app, H3. reflexivity.
  - now rewrite H3.
Qed.

(** X4: the handler completes normally exactly when it has attempted one
    response.  While it is pending it has attempted none; when it ends by
    throwing it has attempted none, or more than one. *)
Theorem one_response_when_settled w env fuel req :
  match outcome w env fuel req with
  | Return _ => length (responses (trace w env fuel req)) = 1
  | Throw _ => length (responses (trace w env fuel req)) <> 1
  | Pending => responses (trace w env fuel req) = []
  end.
Proof.
  apply (did_talk_cases w env req).
  - intros Hbody.
    destruct (path_no_body w env fuel req Hbody) as (-> & ->). cbn. lia.
  - intros Hbody Htext.
    destruct (path_no_text w env fuel req Hbody Htext) as (-> & ->). reflexivity.
  - intros Hbody Htext Hkey.
    destruct (path_no_key w env fuel req Hbody Htext Hkey) as (-> & ->). reflexivity.
  - intros Ha e Hcreate.
    destruct (path_fetch_rejected w env fuel req e Ha Hcreate) as (-> & ->).
    reflexivity.
  - intros Ha rep e Hcreate Hok Hraw.
    destruct (path_rejected_unread w env fuel req rep e Ha Hcreate Hok Hraw)
      as (-> & ->).
    reflexivity.
  - intros Ha rep raw Hcreate Hok Hraw.
    destruct (path_rejected w env fuel req rep raw Ha Hcreate Hok Hraw) as (-> & ->).
    cbn. lia.
  - intros Ha rep e Hcreate Hok Hjson.
    destruct (path_unparseable w env fuel req rep e Ha Hcreate Hok Hjson)
      as (-> & ->).
    reflexivity.
  - intros Ha rep createData Hcreate Hok Hjson Hnull.
    destruct (path_null_data w env fuel req rep createData Ha Hcreate Hok Hjson Hnull)
      as (-> & ->).
    reflexivity.
  - intros createData Hsub.
    unfold outcome, trace, final. rewrite (run_submitted _ _ _ _ _ fuel Hsub).
    pose proof (session_delivery w env fuel (property createData "id")
                  (loop_entry w env (property (body req) "text") createData)
                  eq_refl eq_refl) as H.
    destruct (fst (session w env fuel (property createData "id")
                     (loop_entry w env (property (body req) "text") createData)));
      [exact H | rewrite H; lia | exact H].
Qed.

(** ** The network calls of a run *)

Lemma emits_session_queries w env fuel talkId :
  emits (query_for talkId (authorization env)) (session w env fuel talkId).
Proof.
  unfold session.
  apply emits_try_catch.
  - apply emits_bind.
    + apply emits_poll;
        [intros H; discriminate H | intros _; reflexivity
         | intros r H; discriminate H].
    + intros v. apply emits_conclude. intros code payload H. discriminate H.
  - intros e. apply emits_recover. intros code payload H. discriminate H.
Qed.

(** X5: a run makes one job-creation call at most, before anything else,
    and polls one job.  Either the run makes no network call at all, or
    the request has passed both guards, the first event of the run is the
    creation call for the text of the request, and every later network
    call is a status query for one and the same identifier, made with the
    same Authorization header. *)
Theorem one_creation_then_one_job w env fuel req :
  network_calls (trace w env fuel req) = 0
  \/ (attempted env req
      /\ exists talkId rest,
           trace w env fuel req = creation_call env req :: rest
           /\ only_queries_for talkId (authorization env) rest).
Proof.
  assert (Hquiet : forall t1 t2 e1 e2,
            is_network_call e1 = false -> is_network_call e2 = false ->
            only_queries_for JUndefined (authorization env) [(t1, e1); (t2, e2)]).
  { intros t1 t2 e1 e2 H1 H2. repeat constructor; cbn [snd]; congruence. }
  apply (did_talk_cases w env req).
  - intros Hbody.
    destruct (path_no_body w env fuel req Hbody) as (_ & ->). now left.
  - intros Hbody Htext.
    destruct (path_no_text w env fuel req Hbody Htext) as (_ & ->). now left.
  - intros Hbody Htext Hkey.
    destruct (path_no_key w env fuel req Hbody Htext Hkey) as (_ & ->). now left.
  - intros Ha e Hcreate.
    destruct (path_fetch_rejected w env fuel req e Ha Hcreate) as (_ & ->).
    right. split; [exact Ha|]. exists JUndefined. eexists. split; [reflexivity|].
    repeat constructor; cbn [snd]; discriminate.
  - intros Ha rep e Hcreate Hok Hraw.
    destruct (path_rejected_unread w env fuel req rep e Ha Hcreate Hok Hraw)
      as (_ & ->).
    right. split; [exact Ha|]. exists JUndefined. eexists. split; [reflexivity|].
    now apply Hquiet.
  - intros Ha rep raw Hcreate Hok Hraw.
    destruct (path_rejected w env fuel req rep raw Ha Hcreate Hok Hraw) as (_ & ->).
    right. split; [exact Ha|]. exists JUndefined. eexists. split; [reflexivity|].
    repeat constructor; cbn [snd]; discriminate.
  - intros Ha rep e Hcreate Hok Hjson.
    destruct (path_unparseable w env fuel req rep e Ha Hcreate Hok Hjson)
      as (_ & ->).
    right. split; [exact Ha|]. exists JUndefined. eexists. split; [reflexivity|].
    now apply Hquiet.
  - intros Ha rep createData Hcreate Hok Hjson Hnull.
    destruct (path_null_data w env fuel req rep createData Ha Hcreate Hok Hjson Hnull)
      as (_ & ->).
    right. split; [exact Ha|]. exists JUndefined. eexists. split; [reflexivity|].
    now apply Hquiet.
  - intros createData Hsub. right.
    split; [destruct Hsub as (? & ? & ? & ? & _); subst; repeat split; assumption|].
    unfold trace, final. rewrite (run_submitted _ _ _ _ _ fuel Hsub).
    destruct (emits_session_queries w env fuel (property createData "id")
                (loop_entry w env (property (body req) "text") createData))
      as (evs & Heq & Hevs).
    rewrite Heq. cbn [loop_entry effects app].
    exists (property createData "id"). eexists. split; [reflexivity|].
    constructor; [cbn [snd]; discriminate | exact Hevs].
Qed.

(** ** The responses of the [try] and its [catch] *)

(** Past a property read, the computation goes on with the property. *)
Lemma emits_bind_member {A} ok v key (f : JSValue -> M A) :
  emits ok (f (property v key)) -> emits ok (bind (member v key) f).
Proof.
  intros Hf s. unfold member. destruct (nullish v).
  - exists []. cbn. rewrite app_nil_r. split; [reflexivity | constructor].
  - apply Hf.
Qed.

Lemma emits_attempt w env fuel text :
  emits (attempt_event env text) (try_catch (attempt w env fuel text) recover).
Proof.
  apply emits_try_catch.
  2:{ intros e. unfold recover.
      apply emits_bind; [apply emits_log | intros _].
      apply emits_bind; [apply emits_res_status | intros _].
      apply emits_res_json. intros code. apply attempt_recovers. }
  unfold attempt.
  apply emits_bind; [apply emits_fetch_create; constructor | intros r].
  apply emits_bind; [apply emits_log | intros _].
  apply emits_bind.
  { apply emits_if; [|apply emits_ret].
    apply emits_bind; [apply emits_consume; constructor | intros detail].
    apply emits_res_json. intros code. apply attempt_rejects. }
  intros _.
  apply emits_bind; [apply emits_consume; constructor | intros createData].
  apply emits_bind; [apply emits_member | intros talkId].
  apply emits_bind; [apply emits_log | intros _].
  apply emits_bind; [apply emits_poll; constructor | intros talkResult].
  unfold conclude.
  apply emits_bind; [apply emits_member | intros status].
  apply emits_bind.
  - apply emits_if; [|apply emits_log].
    apply emits_bind; [apply emits_log | intros _].
    apply emits_bind; [apply emits_member | intros logged].
    apply emits_bind; [apply emits_log | intros _].
    apply emits_bind_member.
    apply emits_res_json. intros code. apply attempt_succeeds.
  - intros _. apply emits_bind; [apply emits_res_status | intros _].
    apply emits_res_json. intros code. apply attempt_fails.
Qed.

(** Once both guards are passed, the run is the [try] with its [catch]. *)
Lemma run_attempted w env fuel req :
  attempted env req ->
  run w env fuel req
  = try_catch (attempt w env fuel (property (body req) "text")) recover
              initial_state.
Proof.
  intros (Hbody & Htext & Hkey).
  unfold run, did_talk. unfold destructure at 1. rewrite Hbody.
  unfold bind at 1. cbn [ret]. rewrite Htext, Hkey, sourceUrl_truthy.
  reflexivity.
Qed.

Lemma trace_attempted w env fuel req :
  attempted env req ->
  Forall (fun x => attempt_event env (property (body req) "text") (snd x))
         (trace w env fuel req).
Proof.
  intros Ha. unfold trace, final. rewrite (run_attempted w env fuel req Ha).
  destruct (emits_attempt w env fuel (property (body req) "text") initial_state)
    as (evs & Heq & Hevs).
  rewrite Heq. exact Hevs.
Qed.

Lemma in_responses tr e :
  In e (responses tr) -> exists t, In (t, e) tr /\ is_respond e = true.
Proof.
  unfold responses. rewrite filter_In, in_map_iff.
  intros ((x & Hx & Hin) & He). destruct x as [t e']. cbn in Hx. subst e'.
  exists t. auto.
Qed.

(** ** The configuration guard *)

(** X1: the configuration error is answered exactly when the API key is
    missing.  For a request with a text, the 500 response "D-ID key or
    source image not configured" is attempted if and only if [DID_API_KEY]
    is unset or empty, whatever [DID_SOURCE_URL] is; it is then the only
    event of the run, so no network call is made. *)
Theorem config_error_iff_key_missing w env fuel req :
  nullish (body req) = false ->
  truthy (property (body req) "text") = true ->
  (In (Respond 500 config_error_payload) (responses (trace w env fuel req))
   <-> (DID_API_KEY env = None \/ DID_API_KEY env = Some EmptyString))
  /\ (truthy (env_value (DID_API_KEY env)) = false ->
      outcome w env fuel req = Return tt
      /\ trace w env fuel req = [(0, Respond 500 config_error_payload)]).
Proof.
  intros Hbody Htext.
  assert (Hkey_iff : truthy (env_value (DID_API_KEY env)) = false
                     <-> (DID_API_KEY env = None \/ DID_API_KEY env = Some EmptyString)).
  { destruct (DID_API_KEY env) as [[|c key]|]; cbn; split; intros H;
      try reflexivity; try discriminate; auto; destruct H; discriminate. }
  split; [|now apply path_no_key].
  rewrite <- Hkey_iff. split.
  - intros Hin. destruct (truthy (env_value (DID_API_KEY env))) eqn:Hkey; [|reflexivity].
    exfalso. apply in_responses in Hin. destruct Hin as (t & Hin & _).
    pose proof (trace_attempted w env fuel req (conj Hbody (conj Htext Hkey))) as Hall.
    rewrite Forall_forall in Hall. specialize (Hall _ Hin). cbn [snd] in Hall.
    inversion Hall.
  - intros Hkey.
    destruct (path_no_key w env fuel req Hbody Htext Hkey) as (_ & ->).
    left. reflexivity.
Qed.

(** X1 without a key, [DID_SOURCE_URL] being set. *)
Lemma config_error_witness :
  (In (Respond 500 config_error_payload) (responses (trace stuck_world keyless 3 hello))
   <-> (DID_API_KEY keyless = None \/ DID_API_KEY keyless = Some EmptyString))
  /\ (truthy (env_value (DID_API_KEY keyless)) = false ->
      outcome stuck_world keyless 3 hello = Return tt
      /\ trace stuck_world keyless 3 hello = [(0, Respond 500 config_error_payload)]).
Proof.
  apply (config_error_iff_key_missing stuck_world keyless 3 hello); reflexivity.
Defined.

(** ** A job creation that fails *)

Lemma attempted_hello : attempted configured hello.
Proof. repeat split. Qed.

(** X2: a job creation that fails in transit is answered 502 and nothing
    is polled.  When the [fetch] of the creation call rejects, or the body
    of its [ok] answer does not read as JSON, the handler completes with one
    response, 502 "D-ID error" carrying the message of the error; it has
    made the one creation call and no status query. *)
Theorem creation_failure_answers_502 w env fuel req e :
  attempted env req ->
  creation_fails w e ->
  outcome w env fuel req = Return tt
  /\ responses (trace w env fuel req) = [Respond 502 (provider_error_payload e)]
  /\ creations (trace w env fuel req) = 1
  /\ status_queries (trace w env fuel req) = 0.
Proof.
  intros Ha [Hcreate | (rep & Hcreate & Hok & Hjson)].
  - destruct (path_fetch_rejected w env fuel req e Ha Hcreate) as (-> & ->).
    repeat split.
  - destruct (path_unparseable w env fuel req rep e Ha Hcreate Hok Hjson)
      as (-> & ->).
    repeat split.
Qed.

(** X2 at [offline_world]: the creation call is rejected by [fetch]. *)
Lemma creation_failure_witness :
  outcome offline_world configured 3 hello = Return tt
  /\ responses (trace offline_world configured 3 hello)
     = [Respond 502 (provider_error_payload (mkError TypeError "fetch failed"))]
  /\ creations (trace offline_world configured 3 hello) = 1
  /\ status_queries (trace offline_world configured 3 hello) = 0.
Proof.
  apply (creation_failure_answers_502 offline_world configured 3 hello).
  - exact attempted_hello.
  - left. reflexivity.
Defined.

(** X3: a creation answered [ok] with the JSON value [null] makes the read
    of [createData.id] throw the [TypeError] "Cannot read properties of
    null (reading 'id')" out of the [try]; the [catch] answers 502 with
    that message as detail, the handler completes, and nothing is
    polled. *)
Theorem null_creation_body_answers_502 w env fuel req rep :
  attempted env req ->
  create_reply w = inr rep ->
  reply_ok rep = true ->
  reply_json rep = inr JNull ->
  fst (attempt w env fuel (property (body req) "text") initial_state)
  = Throw (mkError TypeError "Cannot read properties of null (reading 'id')")
  /\ outcome w env fuel req = Return tt
  /\ responses (trace w env fuel req)
     = [Respond 502
          (JObject [("error", JString "D-ID error");
                    ("detail",
                     JString "Cannot read properties of null (reading 'id')")])]
  /\ status_queries (trace w env fuel req) = 0.
Proof.
  intros Ha Hcreate Hok Hjson.
  split.
  - unfold attempt, initial_state. run_ops. rewrite Hcreate. run_ops.
    rewrite Hok. cbv [negb]. run_ops. cbv [resp_json consume]. run_ops.
    cbv [nth mark_used length app]. run_ops. rewrite Hjson. run_ops.
    reflexivity.
  - destruct (path_null_data w env fuel req rep JNull Ha Hcreate Hok Hjson eq_refl)
      as (-> & ->).
    repeat split.
Qed.

(** X3 at [null_world]. *)
Lemma null_creation_body_witness :
  fst (attempt null_world configured 3 (property (body hello) "text") initial_state)
  = Throw (mkError TypeError "Cannot read properties of null (reading 'id')")
  /\ outcome null_world configured 3 hello = Return tt
  /\ responses (trace null_world configured 3 hello)
     = [Respond 502
          (JObject [("error", JString "D-ID error");
                    ("detail",
                     JString "Cannot read properties of null (reading 'id')")])]
  /\ status_queries (trace null_world configured 3 hello) = 0.
Proof.
  apply (null_creation_body_answers_502 null_world configured 3 hello
           (mkReply true (inr "null") (inr JNull)));
    solve [reflexivity | exact attempted_hello].
Defined.

(** ** The two terminal statuses *)

Lemma error_is_not_done (v : JSValue) :
  strict_eq_string v "error" = true -> strict_eq_string v "done" = false.
Proof.
  destruct v; cbn [strict_eq_string]; try discriminate.
  intros H. apply String.eqb_eq in H. subst s. reflexivity.
Qed.

(** X6: a job that ends with status [error] is answered once.  For a job
    identifier with a string form, the handler completes normally; its
    only response is 500 "D-ID processing failed" with the terminal answer
    as detail, after [k + 1] status queries. *)
Theorem error_status_sends_one_failure_response w env req text createData k v :
  submitted w env req text createData ->
  convertible (property createData "id") = true ->
  first_terminal w k v ->
  strict_eq_string (property v "status") "error" = true ->
  forall fuel, k < fuel ->
    outcome w env fuel req = Return tt
    /\ status_queries (trace w env fuel req) = S k
    /\ responses (trace w env fuel req) = [Respond 500 (failure_payload v)].
Proof.
  intros Hsub Hconv Hfirst Herror fuel Hfuel.
  apply (run_failed w env req text createData k v fuel Hsub Hconv Hfirst);
    [|exact Hfuel].
  now apply error_is_not_done.
Qed.

Lemma first_terminal_failure :
  first_terminal failure_world 0
    (object_value [("status", "error"); ("detail", "synthesis failed")]).
Proof.
  split; [intros i Hi; lia | split; [eexists; split; reflexivity | reflexivity]].
Qed.

(** X6 at [failure_world]. *)
Lemma error_status_witness :
  outcome failure_world configured 2 hello = Return tt
  /\ status_queries (trace failure_world configured 2 hello) = 1
  /\ responses (trace failure_world configured 2 hello)
     = [Respond 500
          (failure_payload
             (object_value [("status", "error"); ("detail", "synthesis failed")]))].
Proof.
  apply (error_status_sends_one_failure_response failure_world configured hello
           (JString "Hello world") (object_value [("id", "xyz")]) 0).
  - apply submitted_hello. reflexivity.
  - reflexivity.
  - exact first_terminal_failure.
  - reflexivity.
  - lia.
Defined.

(** X7: a job that ends with status [done] makes the handler end by
    throwing.  For a job identifier with a string form, the success
    response is the one sent; the 500 response after it and the 502
    response of the [catch] are attempted on a response already sent, and
    the exception of the last attempt leaves the handler. *)
Theorem done_status_ends_by_throwing w env req text createData k v :
  submitted w env req text createData ->
  convertible (property createData "id") = true ->
  first_terminal w k v ->
  strict_eq_string (property v "status") "done" = true ->
  forall fuel, k < fuel ->
    outcome w env fuel req = Throw headers_sent_error
    /\ responses (trace w env fuel req)
       = [Respond 200 (success_payload v);
          Respond 500 (failure_payload v);
          Respond 502 (provider_error_payload headers_sent_error)].
Proof.
  intros Hsub Hconv Hfirst Hdone fuel Hfuel.
  destruct (run_done w env req text createData k v fuel
              Hsub Hconv Hfirst Hdone Hfuel) as (Hout & _ & Hresponses).
  auto.
Qed.

(** X7 at [success_world]. *)
Lemma done_status_witness :
  outcome success_world configured 9 hello = Throw headers_sent_error
  /\ responses (trace success_world configured 9 hello)
     = [Respond 200 (JObject [("videoUrl", JString "https://cdn/video.mp4")]);
        Respond 500
          (failure_payload
             (object_value [("status", "done");
                            ("result_url", "https://cdn/video.mp4")]));
        Respond 502 (provider_error_payload headers_sent_error)].
Proof.
  exact (done_status_ends_by_throwing success_world configured hello
           (JString "Hello world") (object_value [("id", "abc123")]) 2
           (object_value [("status", "done"); ("result_url", "https://cdn/video.mp4")])
           (submitted_hello success_world [("id", "abc123")] eq_refl)
           eq_refl first_terminal_success eq_refl 9 ltac:(lia)).
Defined.

(** ** The time of the responses *)

Lemma no_response_yet {P : nat * Event -> Prop} tr :
  responses tr = [] ->
  Forall (fun x => is_respond (snd x) = true -> P x) tr.
Proof.
  unfold responses. induction tr as [|[t e] tr IH]; intros H; constructor.
  - cbn [snd]. intros He. cbn in H. rewrite He in H. discriminate H.
  - apply IH. cbn in H. destruct (is_respond e); [discriminate H | exact H].
Qed.

(** X8: no response comes before the waits are over.  In a session whose
    [k]-th answer is the first terminal one, every response is attempted
    at least 3000 ms after the request arrived: even a job that is done at
    once is answered after 3 seconds.  When the job identifier has a
    string form, so that the [k + 1] status queries are issued, every
    response is attempted at least [3000 * (k + 1)] ms after the request
    arrived. *)
Theorem responses_wait_for_every_turn w env req text createData k v :
  submitted w env req text createData ->
  first_terminal w k v ->
  forall fuel, k < fuel ->
    Forall (fun x => is_respond (snd x) = true -> 3000 <= fst x)
           (trace w env fuel req)
    /\ (convertible (property createData "id") = true ->
        Forall (fun x => is_respond (snd x) = true -> 3000 * S k <= fst x)
               (trace w env fuel req)).
Proof.
  intros Hsub Hfirst fuel Hfuel.
  destruct (convertible (property createData "id")) eqn:Hconv.
  - assert (Hall : Forall (fun x => is_respond (snd x) = true -> 3000 * S k <= fst x)
                          (trace w env fuel req)).
    { unfold trace, final.
      rewrite (run_terminal w env req text createData k v fuel
                 Hsub Hconv Hfirst Hfuel).
      set (s := turns w (property createData "id") (authorization env) (S k)
                      (loop_entry w env text createData)).
      assert (Hsent : headersSent s = false)
        by (unfold s; now rewrite turns_headersSent).
      assert (Hnone : responses (effects s) = [])
        by (unfold s; now rewrite turns_responses).
      assert (Hnow : 3000 * S k <= now s).
      { unfold s. etransitivity; [|apply turns_now]. lia. }
      destruct Hfirst as (_ & _ & Hterminal).
      destruct (strict_eq_string (property v "status") "done") eqn:Hdone.
      - destruct (finish_done v s Hdone Hsent) as (_ & ->).
        apply Forall_app. split; [now apply no_response_yet|].
        repeat constructor; cbn [fst]; intros _; exact Hnow.
      - destruct (finish_error v s (terminal_not_nullish v Hterminal) Hdone Hsent)
          as (_ & ->).
        apply Forall_app. split; [now apply no_response_yet|].
        repeat constructor; cbn [fst]; intros _; exact Hnow. }
    split; [|intros _; exact Hall].
    eapply Forall_impl; [|exact Hall].
    intros x Hx Hrespond. specialize (Hx Hrespond). lia.
  - split; [|intros H; discriminate H].
    rewrite (trace_unconvertible w env req text createData fuel Hsub Hconv)
      by lia.
    repeat constructor; cbn [fst snd is_respond]; intros H;
      solve [discriminate H | lia].
Qed.

(** X8 at [success_world]: three turns, no response before 9000 ms. *)
Lemma responses_wait_witness :
  Forall (fun x => is_respond (snd x) = true -> 3000 <= fst x)
         (trace success_world configured 9 hello)
  /\ (convertible (property (object_value [("id", "abc123")]) "id") = true ->
      Forall (fun x => is_respond (snd x) = true -> 3000 * 3 <= fst x)
             (trace success_world configured 9 hello)).
Proof.
  apply (responses_wait_for_every_turn success_world configured hello
           (JString "Hello world") (object_value [("id", "abc123")]) 2
           (object_value [("status", "done"); ("result_url", "https://cdn/video.mp4")])).
  - apply submitted_hello. reflexivity.
  - exact first_terminal_success.
  - lia.
Defined.

(** ** What the loop does not look at *)

Lemma bind_ext {A B} (m m' : M A) (f f' : A -> M B) (s : State) :
  m s = m' s -> (forall a s', f a s' = f' a s') -> bind m f s = bind m' f' s.
Proof.
  intros Hm Hf. unfold bind. rewrite Hm.
  destruct (m' s) as [[a|e|] s']; [apply Hf | reflexivity | reflexivity].
Qed.

Section Alike.

Variables w w' : World.
Hypothesis Halike : same_but_status_flags w w'.

Lemma settle_ext least s : settle w least s = settle w' least s.
Proof. destruct Halike as (_ & Hdelay & _). unfold settle. now rewrite Hdelay. Qed.

Lemma settle_fetch_ext outcome s : settle_fetch w outcome s = settle_fetch w' outcome s.
Proof. unfold settle_fetch. apply bind_ext; [apply settle_ext | reflexivity]. Qed.

Lemma consume_ext {A} r (view : Reply -> JSError + A) s :
  consume w r view s = consume w' r view s.
Proof.
  unfold consume. destruct (nth (rid r) (bodies s) true).
  - apply bind_ext; [apply settle_ext | reflexivity].
  - apply bind_ext; [reflexivity | intros _ s1].
    apply bind_ext; [apply settle_ext | reflexivity].
Qed.

Lemma queried_ext talkId auth s : queried w talkId auth s = queried w' talkId auth s.
Proof. destruct Halike as (_ & Hdelay & _). unfold queried. now rewrite !Hdelay. Qed.

Lemma waited_ext talkId s : waited w talkId s = waited w' talkId s.
Proof. destruct Halike as (_ & Hdelay & _). unfold waited. now rewrite !Hdelay. Qed.

Lemma answered_ext talkId auth s : answered w talkId auth s = answered w' talkId auth s.
Proof.
  destruct Halike as (_ & Hdelay & _). unfold answered.
  now rewrite queried_ext, !Hdelay.
Qed.

Lemma poll_ext auth talkId fuel :
  forall cur s, poll w fuel auth talkId cur s = poll w' fuel auth talkId cur s.
Proof.
  induction fuel as [|fuel IH]; intros cur s; [reflexivity|].
  rewrite !poll_turn. destruct (loop_cond cur); [|reflexivity].
  destruct (convertible talkId); [|now rewrite waited_ext].
  destruct Halike as (_ & _ & Hreplies). specialize (Hreplies (polls s)).
  unfold answers_alike in Hreplies.
  destruct (status_reply w (polls s)) as [e|rep],
           (status_reply w' (polls s)) as [e'|rep']; try contradiction.
  - subst e'. now rewrite queried_ext.
  - rewrite <- Hreplies, answered_ext.
    destruct (reply_json rep); [reflexivity | apply IH].
Qed.

Lemma did_talk_ext env fuel req s :
  did_talk w env fuel req s = did_talk w' env fuel req s.
Proof.
  unfold did_talk. apply bind_ext; [reflexivity | intros text s1].
  destruct (negb (truthy text)); [reflexivity|].
  destruct (negb (truthy (env_value (DID_API_KEY env))) || negb (truthy (sourceUrl env)));
    [reflexivity|].
  unfold try_catch.
  assert (Hattempt : attempt w env fuel text s1 = attempt w' env fuel text s1);
    [|now rewrite Hattempt].
  unfold attempt.
  apply bind_ext.
  { unfold fetch_create. apply bind_ext; [reflexivity | intros _ s2].
    destruct Halike as (-> & _). apply settle_fetch_ext. }
  intros createResponse s2.
  apply bind_ext; [reflexivity | intros _ s3].
  apply bind_ext.
  { destruct (negb (reply_ok (reply createResponse))); [|reflexivity].
    apply bind_ext; [apply consume_ext | reflexivity]. }
  intros _ s4.
  apply bind_ext; [apply consume_ext | intros createData s5].
  apply bind_ext; [reflexivity | intros talkId s6].
  apply bind_ext; [reflexivity | intros _ s7].
  apply bind_ext; [apply poll_ext | reflexivity].
Qed.

End Alike.

(** X9: the loop looks at the parsed body of a status reply and at
    nothing else.  Two worlds that differ only in the [ok] flags and the
    body texts of their status replies give the same run: a status query
    answered with an HTTP error and a JSON body is treated as any other
    answer. *)
Theorem status_flags_are_ignored w w' env fuel req :
  same_but_status_flags w w' ->
  run w env fuel req = run w' env fuel req.
Proof. intros Halike. unfold run. now apply did_talk_ext. Qed.

(** X9 for [success_world] and [flagged_world]. *)
Lemma status_flags_witness :
  run success_world configured 9 hello = run flagged_world configured 9 hello.
Proof.
  apply (status_flags_are_ignored success_world flagged_world configured 9 hello).
  unfold same_but_status_flags.
  split; [reflexivity|]. split; [intros n; reflexivity|].
  intros k. unfold answers_alike, flagged_world, success_world.
  cbn [status_reply]. destruct (Nat.ltb k 2); reflexivity.
Defined.

(** ** Waits and queries *)

Lemma timers_app tr tr' : timers (tr ++ tr') = timers tr + timers tr'.
Proof. unfold timers. now rewrite map_app, filter_app, length_app. Qed.

Lemma quiet_counts tr evs :
  Forall (fun x => no_wait_no_query (snd x)) evs ->
  timers (tr ++ evs) = timers tr
  /\ status_queries (tr ++ evs) = status_queries tr.
Proof.
  intros Hevs. rewrite timers_app, status_queries_app.
  assert (timers evs = 0 /\ status_queries evs = 0) as (-> & ->); [|lia].
  induction Hevs as [|[t e] evs (Htimer & Hquery) _ (IHt & IHq)]; [split; reflexivity|].
  unfold timers, status_queries in *. cbn [map snd filter] in *.
  rewrite Htimer, Hquery. auto.
Qed.

(** Each turn of the loop for an identifier with a string form sets one
    timer and issues one query. *)
Lemma poll_waits_once_per_query w auth talkId fuel :
  convertible talkId = true ->
  forall cur s,
    timers (effects (snd (poll w fuel auth talkId cur s)))
    + status_queries (effects s)
    = status_queries (effects (snd (poll w fuel auth talkId cur s)))
      + timers (effects s).
Proof.
  intros Hconv.
  assert (Hq : forall s,
            timers (effects (queried w talkId auth s)) = S (timers (effects s))
            /\ status_queries (effects (queried w talkId auth s))
               = S (status_queries (effects s))).
  { intros s. cbn [queried effects].
    rewrite !timers_app, !status_queries_app. cbn. lia. }
  assert (Ha : forall s,
            timers (effects (answered w talkId auth s)) = S (timers (effects s))
            /\ status_queries (effects (answered w talkId auth s))
               = S (status_queries (effects s))).
  { intros s. destruct (Hq s) as (H1 & H2). cbn [answered effects].
    rewrite timers_app, status_queries_app, H1, H2. cbn. lia. }
  induction fuel as [|fuel IH]; intros cur s.
  - cbn [poll]. destruct (loop_cond cur); cbn [snd pending ret]; lia.
  - rewrite poll_turn, Hconv. destruct (loop_cond cur); [|cbn [snd]; lia].
    destruct (status_reply w (polls s)) as [e|rep]; cbn [snd].
    + destruct (Hq s). lia.
    + destruct (Ha s) as (H1 & H2).
      destruct (reply_json rep) as [e|v]; cbn [snd]; [lia|].
      specialize (IH v (answered w talkId auth s)). lia.
Qed.

Lemma session_waits_once_per_query w env fuel talkId s :
  convertible talkId = true ->
  timers (effects (snd (session w env fuel talkId s))) + status_queries (effects s)
  = status_queries (effects (snd (session w env fuel talkId s))) + timers (effects s).
Proof.
  intros Hconv. rewrite session_split.
  pose proof (poll_waits_once_per_query w (authorization env) talkId fuel Hconv
                JUndefined s) as Hpoll.
  assert (Hquiet : forall code payload, no_wait_no_query (Respond code payload))
    by (intros; split; reflexivity).
  destruct (poll w fuel (authorization env) talkId JUndefined s) as [[v|e|] s'];
    cbn [snd] in Hpoll.
  - destruct (emits_try_catch no_wait_no_query (conclude v) recover
                (emits_conclude no_wait_no_query v Hquiet)
                (fun e => emits_recover no_wait_no_query e Hquiet) s')
      as (evs & Heq & Hevs).
    rewrite Heq. destruct (quiet_counts (effects s') evs Hevs) as (-> & ->).
    exact Hpoll.
  - destruct (emits_recover no_wait_no_query e Hquiet s') as (evs & Heq & Hevs).
    rewrite Heq. destruct (quiet_counts (effects s') evs Hevs) as (-> & ->).
    exact Hpoll.
  - exact Hpoll.
Qed.

(** The timers and the status queries of a run: as many of the ones as of
    the others, or one timer and no query, the latter only for a job
    whose identifier has no string form. *)
Lemma waits_and_queries w env fuel req :
  timers (trace w env fuel req) = status_queries (trace w env fuel req)
  \/ (timers (trace w env fuel req) = 1
      /\ status_queries (trace w env fuel req) = 0
      /\ exists createData,
           submitted w env req (property (body req) "text") createData
           /\ convertible (property createData "id") = false).
Proof.
  apply (did_talk_cases w env req).
  - intros Hbody.
    destruct (path_no_body w env fuel req Hbody) as (_ & ->). now left.
  - intros Hbody Htext.
    destruct (path_no_text w env fuel req Hbody Htext) as (_ & ->). now left.
  - intros Hbody Htext Hkey.
    destruct (path_no_key w env fuel req Hbody Htext Hkey) as (_ & ->). now left.
  - intros Ha e Hcreate.
    destruct (path_fetch_rejected w env fuel req e Ha Hcreate) as (_ & ->).
    now left.
  - intros Ha rep e Hcreate Hok Hraw.
    destruct (path_rejected_unread w env fuel req rep e Ha Hcreate Hok Hraw)
      as (_ & ->).
    now left.
  - intros Ha rep raw Hcreate Hok Hraw.
    destruct (path_rejected w env fuel req rep raw Ha Hcreate Hok Hraw) as (_ & ->).
    now left.
  - intros Ha rep e Hcreate Hok Hjson.
    destruct (path_unparseable w env fuel req rep e Ha Hcreate Hok Hjson)
      as (_ & ->).
    now left.
  - intros Ha rep createData Hcreate Hok Hjson Hnull.
    destruct (path_null_data w env fuel req rep createData Ha Hcreate Hok Hjson Hnull)
      as (_ & ->).
    now left.
  - intros createData Hsub.
    destruct (convertible (property createData "id")) eqn:Hconv.
    + left. unfold trace, final. rewrite (run_submitted _ _ _ _ _ fuel Hsub).
      pose proof (session_waits_once_per_query w env fuel (property createData "id")
                    (loop_entry w env (property (body req) "text") createData)
                    Hconv) as H.
      cbn [loop_entry effects] in H. cbn in H. lia.
    + destruct fuel as [|fuel].
      * left. unfold trace, final. rewrite (run_submitted _ _ _ _ _ 0 Hsub).
        reflexivity.
      * right.
        rewrite (trace_unconvertible w env req _ createData (S fuel) Hsub Hconv)
          by lia.
        split; [reflexivity|]. split; [reflexivity|].
        exists createData. auto.
Qed.

(** X10: one wait of 3 seconds per status query.  In every run the timers
    set are as many as the status queries issued, but for a job whose
    identifier has no string form, where one timer is set and no query
    issued; and each timer is a timer of 3000 ms: the interval never
    changes. *)
Theorem one_wait_per_query w env fuel req :
  (timers (trace w env fuel req) = status_queries (trace w env fuel req)
   \/ (timers (trace w env fuel req) = 1
       /\ status_queries (trace w env fuel req) = 0))
  /\ ((forall createData,
         submitted w env req (property (body req) "text") createData ->
         convertible (property createData "id") = true) ->
      timers (trace w env fuel req) = status_queries (trace w env fuel req))
  /\ Forall (fun x => is_timer (snd x) = true -> snd x = Timer 3000)
            (trace w env fuel req).
Proof.
  split; [|split].
  - destruct (waits_and_queries w env fuel req) as [H | (H1 & H2 & _)];
      [now left | now right].
  - intros Hall.
    destruct (waits_and_queries w env fuel req)
      as [H | (_ & _ & createData & Hsub & Hconv)]; [exact H|].
    rewrite (Hall createData Hsub) in Hconv. discriminate Hconv.
  - eapply Forall_impl; [|apply trace_events].
    intros [t e] He. cbn [snd] in *. intros Htimer.
    inversion He; subst; try discriminate Htimer. reflexivity.
Qed.

(** * The forwarding endpoints *)

(** Runs the operations of an exchange on an exchange given by its
    fields. *)
Ltac run_exchange :=
  cbv [run_ask run_audio ask audio fresh_exchange initial_state
       fbind fret ftry lift call calls res replies];
  run_ops.

Example base64_vectors :
  base64_rfc4648 (list_byte_of_string "Man") = "TWFu"
  /\ base64_rfc4648 (list_byte_of_string "Ma") = "TWE="
  /\ base64_rfc4648 (list_byte_of_string "M") = "TQ=="
  /\ base64_rfc4648 (list_byte_of_string "hello world") = "aGVsbG8gd29ybGQ="
  /\ base64_rfc4648 [] = EmptyString
  /\ base64_rfc4648 [Byte.xff; Byte.xfe; Byte.x00; Byte.xfb] = "//4A+w==".
Proof. repeat split. Qed.

(** ** [/api/ask] *)

Lemma ask_refused completion req :
  nullish (body req) = false ->
  truthy (property (body req) "question") = false ->
  fst (run_ask completion req) = Return tt
  /\ replies (snd (run_ask completion req))
     = [Respond 400 (JObject [("error", JString "question required")])]
  /\ calls (snd (run_ask completion req)) = [].
Proof.
  intros Hbody Hquestion.
  run_exchange. rewrite Hbody, Hquestion. cbv [negb]. run_exchange.
  repeat split.
Qed.

Lemma ask_unparsed completion req :
  nullish (body req) = true ->
  fst (run_ask completion req)
  = Throw (destructure_error "req.body" (body req) "question")
  /\ replies (snd (run_ask completion req)) = []
  /\ calls (snd (run_ask completion req)) = [].
Proof.
  intros Hbody.
  run_exchange. rewrite Hbody. run_exchange.
  repeat split.
Qed.

(** X11: for a request without a question the client is not called.  A
    request with a parsed body is answered 400, the handler completing;
    for a request without a parsed body the handler throws on taking
    [question] out of [req.body], and attempts no response. *)
Theorem ask_requires_question completion req :
  truthy (property (body req) "question") = false ->
  calls (snd (run_ask completion req)) = []
  /\ (nullish (body req) = false ->
      fst (run_ask completion req) = Return tt
      /\ replies (snd (run_ask completion req))
         = [Respond 400 (JObject [("error", JString "question required")])])
  /\ (nullish (body req) = true ->
      fst (run_ask completion req)
      = Throw (destructure_error "req.body" (body req) "question")
      /\ replies (snd (run_ask completion req)) = []).
Proof.
  intros Hquestion.
  destruct (nullish (body req)) eqn:Hbody.
  - destruct (ask_unparsed completion req Hbody) as (Hout & Hreplies & Hcalls).
    split; [exact Hcalls|]. split; [intros H; discriminate H | auto].
  - destruct (ask_refused completion req Hbody Hquestion)
      as (Hout & Hreplies & Hcalls).
    split; [exact Hcalls|]. split; [auto | intros H; discriminate H].
Qed.

(** X11 for the empty question, and for a request without a body. *)
Lemma ask_requires_question_witness :
  (calls (snd (run_ask (inr (completion_of (JString "4"))) (asks EmptyString))) = []
   /\ (nullish (body (asks EmptyString)) = false ->
       fst (run_ask (inr (completion_of (JString "4"))) (asks EmptyString))
       = Return tt
       /\ replies (snd (run_ask (inr (completion_of (JString "4")))
                                (asks EmptyString)))
          = [Respond 400 (JObject [("error", JString "question required")])])
   /\ (nullish (body (asks EmptyString)) = true ->
       fst (run_ask (inr (completion_of (JString "4"))) (asks EmptyString))
       = Throw (destructure_error "req.body" (body (asks EmptyString)) "question")
       /\ replies (snd (run_ask (inr (completion_of (JString "4")))
                                (asks EmptyString))) = []))
  /\ fst (run_ask (inr (completion_of (JString "4"))) (mkRequest JUndefined))
     = Throw (mkError TypeError
                "Cannot destructure property 'question' of 'req.body' as it is undefined.").
Proof.
  split; [|reflexivity].
  apply (ask_requires_question (inr (completion_of (JString "4"))) (asks EmptyString)).
  reflexivity.
Defined.

(** The course of [/api/ask] once the question is there, by what the
    client settles with. *)
Lemma ask_forwarded completion req :
  nullish (body req) = false ->
  truthy (property (body req) "question") = true ->
  calls (snd (run_ask completion req))
  = [ChatCompletion (chat_params (property (body req) "question"))]
  /\ fst (run_ask completion req) = Return tt
  /\ replies (snd (run_ask completion req))
     = [match completion with
        | inl e => Respond 502 (ask_error_payload e)
        | inr c =>
            if nullish c
            then Respond 502 (ask_error_payload (null_property_error c "choices"))
            else Respond 200 (answer_payload (first_content (property c "choices")))
        end].
Proof.
  intros Hbody Hquestion.
  run_exchange. rewrite Hbody, Hquestion. cbv [negb]. run_exchange.
  destruct completion as [e|c]; run_exchange; [repeat split|].
  destruct (nullish c); run_exchange; repeat split.
Qed.

(** X12: the answer is the content of the first choice.  When the
    completion has a list of choices whose first one carries a message with
    a string content, the client is called once, with the question as the
    user message, and the handler answers 200 with that string. *)
Theorem ask_answers_first_choice req fields choice others message content :
  nullish (body req) = false ->
  truthy (property (body req) "question") = true ->
  lookup "choices" fields = JArray (JObject choice :: others) ->
  lookup "message" choice = JObject message ->
  lookup "content" message = JString content ->
  fst (run_ask (inr (JObject fields)) req) = Return tt
  /\ calls (snd (run_ask (inr (JObject fields)) req))
     = [ChatCompletion (chat_params (property (body req) "question"))]
  /\ replies (snd (run_ask (inr (JObject fields)) req))
     = [Respond 200 (answer_payload (JString content))].
Proof.
  intros Hbody Hquestion Hchoices Hmessage Hcontent.
  destruct (ask_forwarded (inr (JObject fields)) req Hbody Hquestion)
    as (Hcalls & Hout & Hreplies).
  rewrite Hcalls, Hout, Hreplies.
  cbn [nullish property]. rewrite Hchoices.
  unfold first_content, opt_first, opt_property.
  cbn [nullish first_element hd property]. rewrite Hmessage.
  cbn [nullish property]. rewrite Hcontent.
  unfold or_else. destruct content; repeat split.
Qed.

(** X12 for a completion of one choice. *)
Lemma ask_answers_first_choice_witness :
  fst (run_ask (inr (completion_of (JString "Two plus two is four.")))
               (asks "What is 2 + 2?")) = Return tt
  /\ calls (snd (run_ask (inr (completion_of (JString "Two plus two is four.")))
                         (asks "What is 2 + 2?")))
     = [ChatCompletion (chat_params (JString "What is 2 + 2?"))]
  /\ replies (snd (run_ask (inr (completion_of (JString "Two plus two is four.")))
                           (asks "What is 2 + 2?")))
     = [Respond 200 (answer_payload (JString "Two plus two is four."))].
Proof.
  apply (ask_answers_first_choice (asks "What is 2 + 2?")
           (completion_fields (JString "Two plus two is four."))
           (choice_of (JString "Two plus two is four.")) []
           (message_of (JString "Two plus two is four."))
           "Two plus two is four."); reflexivity.
Defined.

(** X13: a completion without a first choice gives the empty answer, not
    an error.  When [choices] is missing, [null] or an empty list, the
    handler answers 200 with [answer] the empty string. *)
Theorem ask_without_choices_answers_empty req c :
  nullish (body req) = false ->
  truthy (property (body req) "question") = true ->
  nullish c = false ->
  nullish (property c "choices") = true \/ property c "choices" = JArray [] ->
  fst (run_ask (inr c) req) = Return tt
  /\ replies (snd (run_ask (inr c) req))
     = [Respond 200 (answer_payload (JString EmptyString))].
Proof.
  intros Hbody Hquestion Hc Hchoices.
  destruct (ask_forwarded (inr c) req Hbody Hquestion) as (_ & Hout & Hreplies).
  rewrite Hout, Hreplies, Hc.
  destruct Hchoices as [Hnone | Hempty].
  - unfold first_content, opt_first. rewrite Hnone. repeat split.
  - rewrite Hempty. repeat split.
Qed.

(** X13 for a completion that has no [choices]. *)
Lemma ask_without_choices_witness :
  fst (run_ask (inr (JObject [("id", JString "chatcmpl-1")])) (asks "Why?")) = Return tt
  /\ replies (snd (run_ask (inr (JObject [("id", JString "chatcmpl-1")])) (asks "Why?")))
     = [Respond 200 (answer_payload (JString EmptyString))].
Proof.
  apply (ask_without_choices_answers_empty (asks "Why?")
           (JObject [("id", JString "chatcmpl-1")]));
    solve [reflexivity | left; reflexivity].
Defined.

(** X14: a failing client is answered 502.  When the call to the client
    rejects with [e], the handler completes with the one response 502 "AI
    provider error" carrying the message of [e]; the client has been called
    once. *)
Theorem ask_failure_answers_502 req e :
  nullish (body req) = false ->
  truthy (property (body req) "question") = true ->
  fst (run_ask (inl e) req) = Return tt
  /\ replies (snd (run_ask (inl e) req)) = [Respond 502 (ask_error_payload e)]
  /\ calls (snd (run_ask (inl e) req))
     = [ChatCompletion (chat_params (property (body req) "question"))].
Proof.
  intros Hbody Hquestion.
  destruct (ask_forwarded (inl e) req Hbody Hquestion) as (Hcalls & Hout & Hreplies).
  auto.
Qed.

(** X14 for a rate-limit error of the client. *)
Lemma ask_failure_witness :
  fst (run_ask (inl (mkError PlainError "429 Rate limit reached")) (asks "Why?"))
  = Return tt
  /\ replies (snd (run_ask (inl (mkError PlainError "429 Rate limit reached"))
                           (asks "Why?")))
     = [Respond 502 (ask_error_payload (mkError PlainError "429 Rate limit reached"))]
  /\ calls (snd (run_ask (inl (mkError PlainError "429 Rate limit reached"))
                         (asks "Why?")))
     = [ChatCompletion (chat_params (JString "Why?"))].
Proof.
  apply (ask_failure_answers_502 (asks "Why?")
           (mkError PlainError "429 Rate limit reached")); reflexivity.
Defined.

(** X15: [/api/ask] answers once, whatever comes back.  For a request with
    a parsed body and any outcome of the call to the client, the handler
    completes normally with exactly one response, having called the client
    once at most; the answer of a 200 response is never [undefined] or
    [null]. *)
Theorem ask_answers_once completion req :
  nullish (body req) = false ->
  fst (run_ask completion req) = Return tt
  /\ length (calls (snd (run_ask completion req))) <= 1
  /\ exists code payload,
       replies (snd (run_ask completion req)) = [Respond code payload]
       /\ (code = 200 -> nullish (property payload "answer") = false).
Proof.
  intros Hbody.
  destruct (truthy (property (body req) "question")) eqn:Hquestion.
  - destruct (ask_forwarded completion req Hbody Hquestion)
      as (Hcalls & Hout & Hreplies).
    rewrite Hcalls, Hout, Hreplies. repeat split; [cbn; lia|].
    destruct completion as [e|c]; [|destruct (nullish c)];
      do 2 eexists; (split; [reflexivity|]); try discriminate.
    intros _. cbn [answer_payload property lookup String.eqb Ascii.eqb Bool.eqb].
    unfold first_content, or_else.
    destruct (truthy (opt_property (opt_property (opt_first (property c "choices"))
                                                 "message") "content")) eqn:Htruthy;
      [|reflexivity].
    destruct (opt_property (opt_property (opt_first (property c "choices"))
                                         "message") "content");
      try reflexivity; discriminate Htruthy.
  - destruct (ask_refused completion req Hbody Hquestion)
      as (Hout & Hreplies & Hcalls).
    rewrite Hout, Hreplies, Hcalls. repeat split; [cbn; lia|].
    do 2 eexists. split; [reflexivity | discriminate].
Qed.

(** X15 for a completion whose content is [null]. *)
Lemma ask_answers_once_witness :
  fst (run_ask (inr (completion_of JNull)) (asks "Why?")) = Return tt
  /\ length (calls (snd (run_ask (inr (completion_of JNull)) (asks "Why?")))) <= 1
  /\ exists code payload,
       replies (snd (run_ask (inr (completion_of JNull)) (asks "Why?")))
       = [Respond code payload]
       /\ (code = 200 -> nullish (property payload "answer") = false).
Proof.
  apply (ask_answers_once (inr (completion_of JNull)) (asks "Why?")). reflexivity.
Defined.

(** ** [/api/audio] *)

Section AudioProperties.

Variable base64 : list Byte.byte -> string.

Lemma audio_refused speech req :
  nullish (body req) = false ->
  truthy (property (body req) "text") = false ->
  fst (run_audio base64 speech req) = Return tt
  /\ replies (snd (run_audio base64 speech req))
     = [Respond 400 (JObject [("error", JString "text required")])]
  /\ calls (snd (run_audio base64 speech req)) = [].
Proof.
  intros Hbody Htext.
  run_exchange. rewrite Hbody, Htext. cbv [negb]. run_exchange.
  repeat split.
Qed.

Lemma audio_unparsed speech req :
  nullish (body req) = true ->
  fst (run_audio base64 speech req)
  = Throw (destructure_error "req.body" (body req) "text")
  /\ replies (snd (run_audio base64 speech req)) = []
  /\ calls (snd (run_audio base64 speech req)) = [].
Proof.
  intros Hbody.
  run_exchange. rewrite Hbody. run_exchange.
  repeat split.
Qed.

(** The course of [/api/audio] once the text is there, by what the client
    settles with. *)
Lemma audio_forwarded speech req :
  nullish (body req) = false ->
  truthy (property (body req) "text") = true ->
  fst (run_audio base64 speech req) = Return tt
  /\ calls (snd (run_audio base64 speech req))
     = SpeechCreate (speech_params (property (body req) "text"))
       :: match speech with
          | inl _ => []
          | inr _ => [ArrayBufferRead]
          end
  /\ replies (snd (run_audio base64 speech req))
     = [match speech with
        | inl e | inr (inl e) => Respond 502 (audio_error_payload e)
        | inr (inr bytes) =>
            Respond 200 (audio_payload ("data:audio/mpeg;base64," ++ base64 bytes))
        end].
Proof.
  intros Hbody Htext.
  run_exchange. rewrite Hbody, Htext. cbv [negb]. run_exchange.
  destruct speech as [e|[e|bytes]]; run_exchange; repeat split.
Qed.

End AudioProperties.

(** X16: for a request without a text the client is not called.  A
    request with a parsed body is answered 400, the handler completing;
    for a request without a parsed body the handler throws on taking
    [text] out of [req.body], and attempts no response. *)
Theorem audio_requires_text base64 speech req :
  truthy (property (body req) "text") = false ->
  calls (snd (run_audio base64 speech req)) = []
  /\ (nullish (body req) = false ->
      fst (run_audio base64 speech req) = Return tt
      /\ replies (snd (run_audio base64 speech req))
         = [Respond 400 (JObject [("error", JString "text required")])])
  /\ (nullish (body req) = true ->
      fst (run_audio base64 speech req)
      = Throw (destructure_error "req.body" (body req) "text")
      /\ replies (snd (run_audio base64 speech req)) = []).
Proof.
  intros Htext.
  destruct (nullish (body req)) eqn:Hbody.
  - destruct (audio_unparsed base64 speech req Hbody) as (Hout & Hreplies & Hcalls).
    split; [exact Hcalls|]. split; [intros H; discriminate H | auto].
  - destruct (audio_refused base64 speech req Hbody Htext)
      as (Hout & Hreplies & Hcalls).
    split; [exact Hcalls|]. split; [auto | intros H; discriminate H].
Qed.

(** X16 for a body without [text], and for a request without a body. *)
Lemma audio_requires_text_witness :
  (calls (snd (run_audio base64_rfc4648 (inr (inr [])) (mkRequest (JObject [])))) = []
   /\ (nullish (body (mkRequest (JObject []))) = false ->
       fst (run_audio base64_rfc4648 (inr (inr [])) (mkRequest (JObject [])))
       = Return tt
       /\ replies (snd (run_audio base64_rfc4648 (inr (inr []))
                                  (mkRequest (JObject []))))
          = [Respond 400 (JObject [("error", JString "text required")])])
   /\ (nullish (body (mkRequest (JObject []))) = true ->
       fst (run_audio base64_rfc4648 (inr (inr [])) (mkRequest (JObject [])))
       = Throw (destructure_error "req.body" (body (mkRequest (JObject []))) "text")
       /\ replies (snd (run_audio base64_rfc4648 (inr (inr []))
                                  (mkRequest (JObject [])))) = []))
  /\ fst (run_audio base64_rfc4648 (inr (inr [])) (mkRequest JUndefined))
     = Throw (mkError TypeError
                "Cannot destructure property 'text' of 'req.body' as it is undefined.").
Proof.
  split; [|reflexivity].
  apply (audio_requires_text base64_rfc4648 (inr (inr [])) (mkRequest (JObject []))).
  reflexivity.
Defined.

(** X17: the audio comes back as a data URL.  When the speech is created
    and its bytes are read, the handler answers 200 with [audio] the string
    "data:audio/mpeg;base64," followed by the base64 of all the bytes; the
    client has been asked for the text of the request, then for the bytes. *)
Theorem audio_answers_data_url base64 bytes req :
  nullish (body req) = false ->
  truthy (property (body req) "text") = true ->
  fst (run_audio base64 (inr (inr bytes)) req) = Return tt
  /\ calls (snd (run_audio base64 (inr (inr bytes)) req))
     = [SpeechCreate (speech_params (property (body req) "text")); ArrayBufferRead]
  /\ replies (snd (run_audio base64 (inr (inr bytes)) req))
     = [Respond 200 (audio_payload ("data:audio/mpeg;base64," ++ base64 bytes))].
Proof. exact (audio_forwarded base64 (inr (inr bytes)) req). Qed.

(** X17 for the three bytes of "ID3". *)
Lemma audio_answers_data_url_witness :
  fst (run_audio base64_rfc4648 (inr (inr (list_byte_of_string "ID3"))) (says "Hi"))
  = Return tt
  /\ calls (snd (run_audio base64_rfc4648 (inr (inr (list_byte_of_string "ID3")))
                           (says "Hi")))
     = [SpeechCreate (speech_params (JString "Hi")); ArrayBufferRead]
  /\ replies (snd (run_audio base64_rfc4648 (inr (inr (list_byte_of_string "ID3")))
                             (says "Hi")))
     = [Respond 200 (audio_payload "data:audio/mpeg;base64,SUQz")].
Proof.
  apply (audio_answers_data_url base64_rfc4648 (list_byte_of_string "ID3") (says "Hi"));
    reflexivity.
Defined.

(** X18: a failing client is answered 502.  When the creation of the
    speech rejects, or the read of its bytes does, the handler completes
    with the one response 502 "TTS error" carrying the message of the
    error. *)
Theorem audio_failure_answers_502 base64 speech req e :
  nullish (body req) = false ->
  truthy (property (body req) "text") = true ->
  speech = inl e \/ speech = inr (inl e) ->
  fst (run_audio base64 speech req) = Return tt
  /\ replies (snd (run_audio base64 speech req))
     = [Respond 502 (audio_error_payload e)].
Proof.
  intros Hbody Htext Hfail.
  destruct (audio_forwarded base64 speech req Hbody Htext) as (Hout & _ & Hreplies).
  rewrite Hout, Hreplies. destruct Hfail as [-> | ->]; split; reflexivity.
Qed.

(** X18 at [broken_stream]. *)
Lemma audio_failure_witness :
  fst (run_audio base64_rfc4648 broken_stream (says "Hi")) = Return tt
  /\ replies (snd (run_audio base64_rfc4648 broken_stream (says "Hi")))
     = [Respond 502 (audio_error_payload (mkError PlainError "terminated"))].
Proof.
  apply (audio_failure_answers_502 base64_rfc4648 broken_stream (says "Hi"));
    solve [reflexivity | right; reflexivity].
Defined.

(** X19: [/api/audio] answers once, whatever comes back.  For a request
    with a text and any outcome of the calls to the client, the handler
    completes normally with exactly one response, and the bytes are asked
    for exactly when the speech was created. *)
Theorem audio_answers_once base64 speech req :
  nullish (body req) = false ->
  truthy (property (body req) "text") = true ->
  fst (run_audio base64 speech req) = Return tt
  /\ length (replies (snd (run_audio base64 speech req))) = 1
  /\ (In ArrayBufferRead (calls (snd (run_audio base64 speech req)))
      <-> exists outcome, speech = inr outcome).
Proof.
  intros Hbody Htext.
  destruct (audio_forwarded base64 speech req Hbody Htext) as (Hout & Hcalls & Hreplies).
  rewrite Hout, Hcalls, Hreplies. repeat split.
  - intros [H | H]; [discriminate H|].
    destruct speech as [e|outcome]; [destruct H | now exists outcome].
  - intros (outcome & ->). right. left. reflexivity.
Qed.

(** X19 at [broken_stream]. *)
Lemma audio_answers_once_witness :
  fst (run_audio base64_rfc4648 broken_stream (says "Hi")) = Return tt
  /\ length (replies (snd (run_audio base64_rfc4648 broken_stream (says "Hi")))) = 1
  /\ (In ArrayBufferRead (calls (snd (run_audio base64_rfc4648 broken_stream (says "Hi"))))
      <-> exists outcome, broken_stream = inr outcome).
Proof.
  apply (audio_answers_once base64_rfc4648 broken_stream (says "Hi")); reflexivity.
Defined.
